(** * The Stripe component's public surface (src/component/public.ts)

    A shallow embedding of the query, mutation and action handlers of the
    component, of the table schema they are checked against
    (src/component/schema.ts), and of the part of the document store and of
    the remote provider they rely on.

    Documents are JavaScript objects: finite maps from field names to
    values.  A field holding [undefined] is an absent key.  The store keeps
    rows in creation order; the system fields [_id] and [_creationTime] are
    attached to a row when it is read, as the database does. *)

From Stdlib Require Import ZArith.
From stdpp Require Import base option list strings gmap fin_maps.

#[local] Set Warnings "-register-all".

(** ** Values and documents *)

(** The values a document field can hold.  Numbers are carried around
    verbatim by every handler below and never computed with; they are
    represented by integers.  [VId] is a document id: the table it points
    into and the position of the row in that table. *)
Inductive Value : Type :=
| VNull
| VBool (b : bool)
| VNum (n : Z)
| VStr (s : string)
| VArr (l : list Value)
| VObj (l : list (string * Value))
| VId (table : string) (n : nat).

Abbreviation Doc := (gmap string Value).

(** An object literal whose property values may be [undefined]. *)
Abbreviation Literal := (list (string * option Value)).

(** JavaScript truthiness of a property read ([None] is [undefined]). *)
Definition truthy (ov : option Value) : bool :=
  match ov with
  | None => false
  | Some VNull => false
  | Some (VBool b) => b
  | Some (VNum n) => negb (n =? 0)%Z
  | Some (VStr s) => negb (String.eqb s "")
  | Some (VArr _) | Some (VObj _) | Some (VId _ _) => true
  end.

(** The shallow merge of [db.patch]: a property with a value is added or
    overwritten, a property set to [undefined] is removed. *)
Definition shallow_merge (d : Doc) (o : Literal) : Doc :=
  foldl (λ acc kv, match kv.2 with
                   | Some v => <[kv.1 := v]> acc
                   | None => delete kv.1 acc
                   end) d o.

(** What the database stores for an object literal: the last value written
    for every property, properties that are [undefined] dropped. *)
Definition object (o : Literal) : Doc := shallow_merge ∅ o.

(** The value an object literal gives a property, if it names it. *)
Fixpoint assigned (o : Literal) (k : string) : option (option Value) :=
  match o with
  | [] => None
  | kv :: o' =>
      match assigned o' k with
      | Some x => Some x
      | None => if decide (kv.1 = k) then Some kv.2 else None
      end
  end.

(** [const { _id, _creationTime, ...data } = doc]: the rest of the
    destructuring. *)
Definition strip (d : Doc) : Doc := delete "_creationTime" (delete "_id" d).

(** ** Validators and the schema (src/component/schema.ts) *)

Inductive Validator : Type :=
| v_string
| v_number
| v_boolean
| v_null
| v_any
| v_optional (v : Validator)
| v_array (e : Validator)
| v_object (fs : list (string * Validator))
| v_union (a b : Validator).

Definition is_optional (v : Validator) : bool :=
  match v with v_optional _ => true | _ => false end.

Fixpoint validate (v : Validator) (x : Value) {struct v} : bool :=
  match v with
  | v_string => match x with VStr _ | VId _ _ => true | _ => false end
  | v_number => match x with VNum _ => true | _ => false end
  | v_boolean => match x with VBool _ => true | _ => false end
  | v_null => match x with VNull => true | _ => false end
  | v_any => true
  | v_optional w => validate w x
  | v_array e => match x with VArr l => forallb (validate e) l | _ => false end
  | v_object fs =>
      match x with
      | VObj l =>
          let o : Doc := list_to_map l in
          (fix fields (fs : list (string * Validator)) : bool :=
             match fs with
             | [] => true
             | (k, fv) :: fs' =>
                 match o !! k with
                 | Some y => validate fv y
                 | None => is_optional fv
                 end && fields fs'
             end) fs
          && forallb (λ kv, bool_decide (kv.1 ∈ fs.*1)) l
      | _ => false
      end
  | v_union a b => validate a x || validate b x
  end.

(** A property of an object against the validator of its field. *)
Definition validate_field (fv : Validator) (ov : option Value) : bool :=
  match ov with
  | Some y => validate fv y
  | None => is_optional fv
  end.

Record TableDefinition := defineTable {
  validator : list (string * Validator);
  indexes : list (string * list string)
}.

Definition index (name : string) (fields : list string) (t : TableDefinition)
  : TableDefinition :=
  {| validator := validator t; indexes := indexes t ++ [(name, fields)] |}.

Definition table_of (fs : list (string * Validator)) : TableDefinition :=
  {| validator := fs; indexes := [] |}.

Module schema.

Definition products : TableDefinition :=
  index "by_active" ["active"]
  (index "by_stripe_product_id" ["stripeProductId"]
  (table_of
     [ ("stripeProductId", v_string);
       ("name", v_string);
       ("description", v_optional v_string);
       ("active", v_boolean);
       ("type", v_optional v_string);
       ("defaultPriceId", v_optional v_string);
       ("metadata", v_optional v_any);
       ("images", v_optional (v_array v_string)) ])).

Definition prices : TableDefinition :=
  index "by_lookup_key" ["lookupKey"]
  (index "by_active" ["active"]
  (index "by_stripe_product_id" ["stripeProductId"]
  (index "by_stripe_price_id" ["stripePriceId"]
  (table_of
     [ ("stripePriceId", v_string);
       ("stripeProductId", v_string);
       ("active", v_boolean);
       ("currency", v_string);
       ("type", v_string);
       ("unitAmount", v_optional v_number);
       ("description", v_optional v_string);
       ("lookupKey", v_optional v_string);
       ("recurringInterval", v_optional v_string);
       ("recurringIntervalCount", v_optional v_number);
       ("trialPeriodDays", v_optional v_number);
       ("usageType", v_optional v_string);
       ("billingScheme", v_optional v_string);
       ("tiersMode", v_optional v_string);
       ("tiers",
         v_optional
           (v_array
              (v_object
                 [ ("upTo", v_union v_number v_null);
                   ("flatAmount", v_optional v_number);
                   ("unitAmount", v_optional v_number) ])));
       ("metadata", v_optional v_any) ])))).

Definition customers : TableDefinition :=
  index "by_email" ["email"]
  (index "by_stripe_customer_id" ["stripeCustomerId"]
  (table_of
     [ ("stripeCustomerId", v_string);
       ("email", v_optional v_string);
       ("name", v_optional v_string);
       ("metadata", v_optional v_any) ])).

Definition subscriptions : TableDefinition :=
  index "by_user_id" ["userId"]
  (index "by_org_id" ["orgId"]
  (index "by_stripe_customer_id" ["stripeCustomerId"]
  (index "by_stripe_subscription_id" ["stripeSubscriptionId"]
  (table_of
     [ ("stripeSubscriptionId", v_string);
       ("stripeCustomerId", v_string);
       ("status", v_string);
       ("currentPeriodEnd", v_number);
       ("cancelAtPeriodEnd", v_boolean);
       ("cancelAt", v_optional v_number);
       ("quantity", v_optional v_number);
       ("priceId", v_string);
       ("metadata", v_optional v_any);
       ("orgId", v_optional v_string);
       ("userId", v_optional v_string) ])))).

Definition checkout_sessions : TableDefinition :=
  index "by_stripe_checkout_session_id" ["stripeCheckoutSessionId"]
  (table_of
     [ ("stripeCheckoutSessionId", v_string);
       ("stripeCustomerId", v_optional v_string);
       ("status", v_string);
       ("mode", v_string);
       ("metadata", v_optional v_any) ]).

Definition payments : TableDefinition :=
  index "by_user_id" ["userId"]
  (index "by_org_id" ["orgId"]
  (index "by_stripe_customer_id" ["stripeCustomerId"]
  (index "by_stripe_payment_intent_id" ["stripePaymentIntentId"]
  (table_of
     [ ("stripePaymentIntentId", v_string);
       ("stripeCustomerId", v_optional v_string);
       ("amount", v_number);
       ("currency", v_string);
       ("status", v_string);
       ("created", v_number);
       ("metadata", v_optional v_any);
       ("orgId", v_optional v_string);
       ("userId", v_optional v_string) ])))).

Definition invoices : TableDefinition :=
  index "by_user_id" ["userId"]
  (index "by_org_id" ["orgId"]
  (index "by_stripe_subscription_id" ["stripeSubscriptionId"]
  (index "by_stripe_customer_id" ["stripeCustomerId"]
  (index "by_stripe_invoice_id" ["stripeInvoiceId"]
  (table_of
     [ ("stripeInvoiceId", v_string);
       ("stripeCustomerId", v_string);
       ("stripeSubscriptionId", v_optional v_string);
       ("status", v_string);
       ("amountDue", v_number);
       ("amountPaid", v_number);
       ("created", v_number);
       ("orgId", v_optional v_string);
       ("userId", v_optional v_string) ]))))).

(** [defineSchema]: the tables by name. *)
Definition tables : gmap string TableDefinition :=
  list_to_map
    [ ("products", products);
      ("prices", prices);
      ("customers", customers);
      ("subscriptions", subscriptions);
      ("checkout_sessions", checkout_sessions);
      ("payments", payments);
      ("invoices", invoices) ].

End schema.

(** A stored object conforms to a table when every declared field
    validates and no undeclared field is present. *)
Definition conforms (t : TableDefinition) (d : Doc) : bool :=
  forallb (λ kf, validate_field kf.2 (d !! kf.1)) (validator t)
  && bool_decide (dom d ⊆ list_to_set (validator t).*1).

(** ** Results of handlers *)

(** A handler returns a value or throws. *)
Inductive result (A : Type) : Type :=
| Ok (a : A)
| Throw (msg : string).
Arguments Ok {A} a.
Arguments Throw {A} msg.

#[global] Instance result_ret : MRet result := λ A a, Ok a.
#[global] Instance result_bind : MBind result := λ A B f m,
  match m with
  | Ok a => f a
  | Throw e => Throw e
  end.
#[global] Instance result_fmap : FMap result := λ A B f m,
  match m with
  | Ok a => Ok (f a)
  | Throw e => Throw e
  end.

Definition returned {A} (r : result A) : Prop := ∃ a, r = Ok a.
Definition thrown {A} (r : result A) : Prop := ∃ msg, r = Throw msg.

(** ** The document store *)

(** A stored row: the creation stamp and the user fields. *)
Record Row := mkRow { creationTime : Z; fields : Doc }.

(** The store: the rows of every table in creation order, and the logical
    clock the next creation stamp is taken from. *)
Record Db := mkDb { db_tables : gmap string (list Row); ticks : Z }.

Definition rows (db : Db) (t : string) : list Row :=
  default [] (db_tables db !! t).

Definition set_rows (t : string) (l : list Row) (db : Db) : Db :=
  {| db_tables := <[t := l]> (db_tables db); ticks := ticks db |}.

(** The document read from row [i] of table [t]. *)
Definition document (t : string) (i : nat) (r : Row) : Doc :=
  <["_id" := VId t i]> (<["_creationTime" := VNum (creationTime r)]> (fields r)).

(** [ctx.db.query(t)]: the documents of a table, in creation order. *)
Definition query (ctx : Db) (t : string) : list Doc :=
  imap (document t) (rows ctx t).

(** The value an index range expression compares a field with. *)
Inductive IndexKey : Type :=
| KString (s : string)
| KBoolean (b : bool).

(** [q.eq(field, key)] *)
Definition q_eq (field : string) (key : IndexKey) (d : Doc) : bool :=
  match key, d !! field with
  | KString s, Some (VStr s') => bool_decide (s' = s)
  | KBoolean b, Some (VBool b') => bool_decide (b' = b)
  | _, _ => false
  end.

(** [.withIndex(name, range)]: the documents in the range.  All ranges of
    this component are an equality on the first field of the index, so the
    documents keep their creation order. *)
Definition withIndex (name : string) (range : Doc → bool) (docs : list Doc)
  : list Doc :=
  filter (λ d, range d) docs.

(** [.unique()] *)
Definition unique (docs : list Doc) : result (option Doc) :=
  match docs with
  | [] => Ok None
  | [d] => Ok (Some d)
  | _ :: _ :: _ => Throw "unique() query returned more than one result"
  end.

(** [.first()] *)
Definition first (docs : list Doc) : option Doc := head docs.

(** [.collect()] *)
Definition collect (docs : list Doc) : list Doc := docs.

(** ** Mutations *)

(** A mutation runs in a transaction: it returns a value and the new
    store, or throws and leaves the store as it was. *)
Definition Mutation (A : Type) : Type := Db → result (A * Db).

#[global] Instance mutation_ret : MRet Mutation := λ A a db, Ok (a, db).
#[global] Instance mutation_bind : MBind Mutation := λ A B f m db,
  match m db with
  | Ok (a, db') => f a db'
  | Throw e => Throw e
  end.

Definition throw {A} (msg : string) : Mutation A := λ _, Throw msg.

(** A read inside a mutation. *)
Definition reading {A} (q : Db → result A) : Mutation A := λ db,
  match q db with
  | Ok a => Ok (a, db)
  | Throw e => Throw e
  end.

(** The store after a mutation, committed or rolled back. *)
Definition state_after {A} (m : Mutation A) (db : Db) : Db :=
  match m db with
  | Ok (_, db') => db'
  | Throw _ => db
  end.

(** The outcome of a mutation without the store. *)
Definition outcome {A} (m : Mutation A) (db : Db) : result A :=
  match m db with
  | Ok (a, _) => Ok a
  | Throw e => Throw e
  end.

(** The row [ctx.db.insert] creates at clock [now]. *)
Definition new_row (now : Z) (o : Literal) : Row :=
  {| creationTime := now; fields := object o |}.

(** The row [ctx.db.patch] leaves in place of [r]. *)
Definition patch_row (o : Literal) (r : Row) : Row :=
  {| creationTime := creationTime r; fields := shallow_merge (fields r) o |}.

(** The store with one more row at the end of table [t]; the clock moves
    on. *)
Definition add_row (t : string) (r : Row) (db : Db) : Db :=
  {| db_tables := <[t := rows db t ++ [r]]> (db_tables db);
     ticks := (ticks db + 1)%Z |}.

(** [ctx.db.insert(t, o)]: a new row at the end of the table, stamped with
    the clock; returns its id. *)
Definition db_insert (t : string) (o : Literal) : Mutation Value := λ db,
  let id := VId t (length (rows db t)) in
  Ok (id, add_row t (new_row (ticks db) o) db).

(** [ctx.db.patch(id, o)]: shallow merge into the row the id points to;
    throws when there is no such row.  [id] is the property read
    [doc._id]. *)
Definition db_patch (id : option Value) (o : Literal) : Mutation unit := λ db,
  match id with
  | Some (VId t i) =>
      match rows db t !! i with
      | Some r => Ok (tt, set_rows t (<[i := patch_row o r]> (rows db t)) db)
      | None => Throw "Update on nonexistent document ID"
      end
  | _ => Throw "Invalid argument `id` for `db.patch`"
  end.

(** ** Public queries (public.ts, lines 30-416) *)

(** [if (!doc) return null; const { _id, _creationTime, ...data } = doc;
    return data;] *)
Definition data_or_null (doc : option Doc) : option Doc :=
  match doc with
  | None => None
  | Some d => Some (strip d)
  end.

(** Products *)

Definition getProduct (ctx : Db) (stripeProductId : string)
  : result (option Doc) :=
  product ← unique
    (withIndex "by_stripe_product_id"
       (q_eq "stripeProductId" (KString stripeProductId))
       (query ctx "products"));
  mret (data_or_null product).

Definition listProducts (ctx : Db) : result (list Doc) :=
  let products := collect (query ctx "products") in
  mret (strip <$> products).

Definition listActiveProducts (ctx : Db) : result (list Doc) :=
  let products :=
    collect (withIndex "by_active" (q_eq "active" (KBoolean true))
               (query ctx "products")) in
  mret (strip <$> products).

(** Prices *)

Definition getPrice (ctx : Db) (stripePriceId : string)
  : result (option Doc) :=
  price ← unique
    (withIndex "by_stripe_price_id"
       (q_eq "stripePriceId" (KString stripePriceId))
       (query ctx "prices"));
  mret (data_or_null price).

Definition listPrices (ctx : Db) : result (list Doc) :=
  let prices := collect (query ctx "prices") in
  mret (strip <$> prices).

Definition listActivePrices (ctx : Db) : result (list Doc) :=
  let prices :=
    collect (withIndex "by_active" (q_eq "active" (KBoolean true))
               (query ctx "prices")) in
  mret (strip <$> prices).

Definition listPricesByProduct (ctx : Db) (stripeProductId : string)
  : result (list Doc) :=
  let prices :=
    collect (withIndex "by_stripe_product_id"
               (q_eq "stripeProductId" (KString stripeProductId))
               (query ctx "prices")) in
  mret (strip <$> prices).

Definition listActivePricesByProduct (ctx : Db) (stripeProductId : string)
  : result (list Doc) :=
  let prices :=
    collect (withIndex "by_stripe_product_id"
               (q_eq "stripeProductId" (KString stripeProductId))
               (query ctx "prices")) in
  mret (strip <$> filter (λ price, truthy (price !! "active")) prices).

Definition getPriceByLookupKey (ctx : Db) (lookupKey : string)
  : result (option Doc) :=
  price ← unique
    (withIndex "by_lookup_key" (q_eq "lookupKey" (KString lookupKey))
       (query ctx "prices"));
  mret (data_or_null price).

(** The object [{ product, prices }]. *)
Record ProductWithPrices := { product : Doc; prices : list Doc }.

Definition getProductWithPrices (ctx : Db) (stripeProductId : string)
  : result (option ProductWithPrices) :=
  product ← unique
    (withIndex "by_stripe_product_id"
       (q_eq "stripeProductId" (KString stripeProductId))
       (query ctx "products"));
  match product with
  | None => mret None
  | Some product =>
      let prices :=
        collect (withIndex "by_stripe_product_id"
                   (q_eq "stripeProductId" (KString stripeProductId))
                   (query ctx "prices")) in
      let productData := strip product in
      mret (Some {| product := productData; prices := strip <$> prices |})
  end.

(** Customers *)

Definition getCustomer (ctx : Db) (stripeCustomerId : string)
  : result (option Doc) :=
  customer ← unique
    (withIndex "by_stripe_customer_id"
       (q_eq "stripeCustomerId" (KString stripeCustomerId))
       (query ctx "customers"));
  mret (data_or_null customer).

(** Subscriptions *)

Definition getSubscription (ctx : Db) (stripeSubscriptionId : string)
  : result (option Doc) :=
  subscription ← unique
    (withIndex "by_stripe_subscription_id"
       (q_eq "stripeSubscriptionId" (KString stripeSubscriptionId))
       (query ctx "subscriptions"));
  mret (data_or_null subscription).

Definition listSubscriptions (ctx : Db) (stripeCustomerId : string)
  : result (list Doc) :=
  let subscriptions :=
    collect (withIndex "by_stripe_customer_id"
               (q_eq "stripeCustomerId" (KString stripeCustomerId))
               (query ctx "subscriptions")) in
  mret (strip <$> subscriptions).

Definition getSubscriptionByOrgId (ctx : Db) (orgId : string)
  : result (option Doc) :=
  let subscription :=
    first (withIndex "by_org_id" (q_eq "orgId" (KString orgId))
             (query ctx "subscriptions")) in
  mret (data_or_null subscription).

Definition listSubscriptionsByUserId (ctx : Db) (userId : string)
  : result (list Doc) :=
  let subscriptions :=
    collect (withIndex "by_user_id" (q_eq "userId" (KString userId))
               (query ctx "subscriptions")) in
  mret (strip <$> subscriptions).

(** Payments *)

Definition getPayment (ctx : Db) (stripePaymentIntentId : string)
  : result (option Doc) :=
  payment ← unique
    (withIndex "by_stripe_payment_intent_id"
       (q_eq "stripePaymentIntentId" (KString stripePaymentIntentId))
       (query ctx "payments"));
  mret (data_or_null payment).

Definition listPayments (ctx : Db) (stripeCustomerId : string)
  : result (list Doc) :=
  let payments :=
    collect (withIndex "by_stripe_customer_id"
               (q_eq "stripeCustomerId" (KString stripeCustomerId))
               (query ctx "payments")) in
  mret (strip <$> payments).

Definition listPaymentsByUserId (ctx : Db) (userId : string)
  : result (list Doc) :=
  let payments :=
    collect (withIndex "by_user_id" (q_eq "userId" (KString userId))
               (query ctx "payments")) in
  mret (strip <$> payments).

Definition listPaymentsByOrgId (ctx : Db) (orgId : string)
  : result (list Doc) :=
  let payments :=
    collect (withIndex "by_org_id" (q_eq "orgId" (KString orgId))
               (query ctx "payments")) in
  mret (strip <$> payments).

(** Invoices *)

Definition listInvoices (ctx : Db) (stripeCustomerId : string)
  : result (list Doc) :=
  let invoices :=
    collect (withIndex "by_stripe_customer_id"
               (q_eq "stripeCustomerId" (KString stripeCustomerId))
               (query ctx "invoices")) in
  mret (strip <$> invoices).

Definition listInvoicesByOrgId (ctx : Db) (orgId : string)
  : result (list Doc) :=
  let invoices :=
    collect (withIndex "by_org_id" (q_eq "orgId" (KString orgId))
               (query ctx "invoices")) in
  mret (strip <$> invoices).

Definition listInvoicesByUserId (ctx : Db) (userId : string)
  : result (list Doc) :=
  let invoices :=
    collect (withIndex "by_user_id" (q_eq "userId" (KString userId))
               (query ctx "invoices")) in
  mret (strip <$> invoices).

(** The query surface as one function: a call, and the records its answer
    holds. *)
Inductive QueryCall : Type :=
| GetProduct (stripeProductId : string)
| ListProducts
| ListActiveProducts
| GetPrice (stripePriceId : string)
| ListPrices
| ListActivePrices
| ListPricesByProduct (stripeProductId : string)
| ListActivePricesByProduct (stripeProductId : string)
| GetPriceByLookupKey (lookupKey : string)
| GetProductWithPrices (stripeProductId : string)
| GetCustomer (stripeCustomerId : string)
| GetSubscription (stripeSubscriptionId : string)
| ListSubscriptions (stripeCustomerId : string)
| GetSubscriptionByOrgId (orgId : string)
| ListSubscriptionsByUserId (userId : string)
| GetPayment (stripePaymentIntentId : string)
| ListPayments (stripeCustomerId : string)
| ListPaymentsByUserId (userId : string)
| ListPaymentsByOrgId (orgId : string)
| ListInvoices (stripeCustomerId : string)
| ListInvoicesByOrgId (orgId : string)
| ListInvoicesByUserId (userId : string).

Inductive Answer : Type :=
| ARecord (r : option Doc)
| AList (l : list Doc)
| AProductWithPrices (r : option ProductWithPrices).

Definition run_query (ctx : Db) (c : QueryCall) : result Answer :=
  match c with
  | GetProduct i => ARecord <$> getProduct ctx i
  | ListProducts => AList <$> listProducts ctx
  | ListActiveProducts => AList <$> listActiveProducts ctx
  | GetPrice i => ARecord <$> getPrice ctx i
  | ListPrices => AList <$> listPrices ctx
  | ListActivePrices => AList <$> listActivePrices ctx
  | ListPricesByProduct i => AList <$> listPricesByProduct ctx i
  | ListActivePricesByProduct i => AList <$> listActivePricesByProduct ctx i
  | GetPriceByLookupKey k => ARecord <$> getPriceByLookupKey ctx k
  | GetProductWithPrices i => AProductWithPrices <$> getProductWithPrices ctx i
  | GetCustomer i => ARecord <$> getCustomer ctx i
  | GetSubscription i => ARecord <$> getSubscription ctx i
  | ListSubscriptions i => AList <$> listSubscriptions ctx i
  | GetSubscriptionByOrgId o => ARecord <$> getSubscriptionByOrgId ctx o
  | ListSubscriptionsByUserId u => AList <$> listSubscriptionsByUserId ctx u
  | GetPayment i => ARecord <$> getPayment ctx i
  | ListPayments i => AList <$> listPayments ctx i
  | ListPaymentsByUserId u => AList <$> listPaymentsByUserId ctx u
  | ListPaymentsByOrgId o => AList <$> listPaymentsByOrgId ctx o
  | ListInvoices i => AList <$> listInvoices ctx i
  | ListInvoicesByOrgId o => AList <$> listInvoicesByOrgId ctx o
  | ListInvoicesByUserId u => AList <$> listInvoicesByUserId ctx u
  end.

(** The records an answer holds. *)
Definition records (a : Answer) : list Doc :=
  match a with
  | ARecord r => option_list r
  | AList l => l
  | AProductWithPrices None => []
  | AProductWithPrices (Some r) => product r :: prices r
  end.

(** ** Public mutations (public.ts, lines 426-495) *)

Module CustomerArgs.
Record t := {
  stripeCustomerId : string;
  email : option string;
  name : option string;
  metadata : option Value
}.
End CustomerArgs.

Module MetadataArgs.
Record t := {
  stripeSubscriptionId : string;
  metadata : Value;
  orgId : option string;
  userId : option string
}.
End MetadataArgs.

Definition createOrUpdateCustomer (args : CustomerArgs.t) : Mutation string :=
  existing ← reading (λ ctx, unique
    (withIndex "by_stripe_customer_id"
       (q_eq "stripeCustomerId" (KString (CustomerArgs.stripeCustomerId args)))
       (query ctx "customers")));
  match existing with
  | Some existing =>
      db_patch (existing !! "_id")
        [ ("email", VStr <$> CustomerArgs.email args);
          ("name", VStr <$> CustomerArgs.name args);
          ("metadata", CustomerArgs.metadata args) ]
  | None =>
      db_insert "customers"
        [ ("stripeCustomerId", Some (VStr (CustomerArgs.stripeCustomerId args)));
          ("email", VStr <$> CustomerArgs.email args);
          ("name", VStr <$> CustomerArgs.name args);
          ("metadata", CustomerArgs.metadata args) ];;
      mret tt
  end;;
  mret (CustomerArgs.stripeCustomerId args).

Definition updateSubscriptionMetadata (args : MetadataArgs.t) : Mutation Value :=
  subscription ← reading (λ ctx, unique
    (withIndex "by_stripe_subscription_id"
       (q_eq "stripeSubscriptionId"
          (KString (MetadataArgs.stripeSubscriptionId args)))
       (query ctx "subscriptions")));
  match subscription with
  | None =>
      throw ("Subscription " ++ MetadataArgs.stripeSubscriptionId args
             ++ " not found in database")
  | Some subscription =>
      db_patch (subscription !! "_id")
        [ ("metadata", Some (MetadataArgs.metadata args));
          ("orgId", VStr <$> MetadataArgs.orgId args);
          ("userId", VStr <$> MetadataArgs.userId args) ];;
      mret VNull
  end.

(** ** The store write behind [product.deleted] *)

(** Modelled from the spec: the mutation the webhook processor runs for a
    [product.deleted] event is in src/component/private.ts, which is not
    among the sources.  Spec, Resource Mergers: "Deletion events
    ([*.deleted]): for Product and Price, set [active=false] rather than
    removing the row"; Data model: "never hard-deleted - [product.deleted]
    sets [active=false] (soft delete) rather than removing the row".  The
    product is found by its external id like everywhere else; for a product
    the store does not hold there is no row to set the flag on. *)
Definition product_deleted (stripeProductId : string) : Mutation Value :=
  existing ← reading (λ ctx, unique
    (withIndex "by_stripe_product_id"
       (q_eq "stripeProductId" (KString stripeProductId))
       (query ctx "products")));
  match existing with
  | Some existing =>
      db_patch (existing !! "_id") [ ("active", Some (VBool false)) ]
  | None => mret tt
  end;;
  mret VNull.

(** ** Store invariants *)

(** The documents of table [t] whose [field] is the external id [i]. *)
Definition keyed_by (ctx : Db) (t field i : string) : list Doc :=
  filter (λ d, q_eq field (KString i) d) (query ctx t).

(** Data model: every entity is keyed by the provider's external id, at
    most one row per id. *)
Definition unique_key (ctx : Db) (t field : string) : Prop :=
  ∀ i, length (keyed_by ctx t field i) ≤ 1.

(** Every stored row conforms to the schema of its table. *)
Definition table_conforms (ctx : Db) (t : string) : Prop :=
  ∀ def r, schema.tables !! t = Some def → r ∈ rows ctx t →
    conforms def (fields r) = true.

(** ** Actions and the remote provider *)

(** What the handlers read of the provider's subscription object:
    [subscription.items.data[k].id]. *)
Record SubscriptionItem := { item_id : string }.
Record Subscription := { items_data : list SubscriptionItem }.

(** The calls an action makes, in the order it makes them, each with
    whether it succeeded. *)
Inductive Effect : Type :=
| SubscriptionsRetrieve (stripeSubscriptionId : string) (ok : bool)
| SubscriptionItemsUpdate (item : string) (quantity : Z) (ok : bool)
| CheckoutSessionsCreate (ok : bool)
| RunMutation (stripeSubscriptionId : string) (quantity : Z) (ok : bool).

Definition is_local_write (e : Effect) : bool :=
  match e with
  | RunMutation _ _ _ => true
  | _ => false
  end.

Definition is_remote_call (e : Effect) : bool :=
  match e with
  | RunMutation _ _ _ => false
  | _ => true
  end.

Module CheckoutArgs.
Record t := {
  priceId : string;
  mode : string;
  successUrl : string;
  cancelUrl : string;
  allowPromotionCodes : option bool;
  discounts : option (list Value)
}.
End CheckoutArgs.

Section Actions.

(** The provider: its state, and the SDK calls with the key they are made
    with.  A call returns or throws, and leaves the provider in a new
    state either way. *)
Context {Stripe : Type}.
Variable subscriptions_retrieve :
  string → string → Stripe → result Subscription * Stripe.
Variable subscriptionItems_update :
  string → string → Z → Stripe → result unit * Stripe.
Variable checkout_sessions_create :
  string → CheckoutArgs.t → Stripe → result Value * Stripe.

(** [api.private.updateSubscriptionQuantityInternal], a mutation of
    src/component/private.ts; the action only runs it. *)
Variable updateSubscriptionQuantityInternal : string → Z → Mutation Value.

(** What an action runs in: the environment variables, the provider, the
    local store, and the calls made so far. *)
Record World := mkWorld {
  env : gmap string string;
  remote : Stripe;
  local : Db;
  trace : list Effect
}.

(** An action is not transactional: what it did before it throws
    stays done. *)
Definition Action (A : Type) : Type := World → result A * World.

#[local] Instance action_ret : MRet Action := λ A a w, (Ok a, w).
#[local] Instance action_bind : MBind Action := λ A B f m w,
  match m w with
  | (Ok a, w') => f a w'
  | (Throw e, w') => (Throw e, w')
  end.

Definition throw_error {A} (msg : string) : Action A := λ w, (Throw msg, w).

Definition is_ok {A} (r : result A) : bool :=
  match r with Ok _ => true | Throw _ => false end.

(** [process.env[k]] *)
Definition process_env (k : string) : Action (option string) := λ w,
  (Ok (env w !! k), w).

(** [stripe.subscriptions.retrieve(id)] *)
Definition stripe_subscriptions_retrieve (apiKey id : string)
  : Action Subscription := λ w,
  let '(r, s) := subscriptions_retrieve apiKey id (remote w) in
  (r, {| env := env w; remote := s; local := local w;
         trace := trace w ++ [SubscriptionsRetrieve id (is_ok r)] |}).

(** [stripe.subscriptionItems.update(item, { quantity })] *)
Definition stripe_subscriptionItems_update (apiKey item : string)
    (quantity : Z) : Action unit := λ w,
  let '(r, s) := subscriptionItems_update apiKey item quantity (remote w) in
  (r, {| env := env w; remote := s; local := local w;
         trace := trace w
                  ++ [SubscriptionItemsUpdate item quantity (is_ok r)] |}).

(** [stripe.checkout.sessions.create(params)] *)
Definition stripe_checkout_sessions_create (apiKey : string)
    (args : CheckoutArgs.t) : Action Value := λ w,
  let '(r, s) := checkout_sessions_create apiKey args (remote w) in
  (r, {| env := env w; remote := s; local := local w;
         trace := trace w ++ [CheckoutSessionsCreate (is_ok r)] |}).

(** [ctx.runMutation(api.private.updateSubscriptionQuantityInternal,
    { stripeSubscriptionId, quantity })]: the mutation commits or the
    store stays as it was. *)
Definition ctx_runMutation (stripeSubscriptionId : string) (quantity : Z)
  : Action Value := λ w,
  let m := updateSubscriptionQuantityInternal stripeSubscriptionId quantity in
  let r := outcome m (local w) in
  (r, {| env := env w; remote := remote w;
         local := state_after m (local w);
         trace := trace w
                  ++ [RunMutation stripeSubscriptionId quantity (is_ok r)] |}).

(** public.ts, lines 502-540 *)
Definition updateSubscriptionQuantity (stripeSubscriptionId : string)
    (quantity : Z) : Action Value :=
  apiKey ← process_env "STRIPE_SECRET_KEY";
  if negb (truthy (VStr <$> apiKey)) then
    throw_error "STRIPE_SECRET_KEY must be provided as an environment variable"
  else
    let stripe := default "" apiKey in
    subscription ← stripe_subscriptions_retrieve stripe stripeSubscriptionId;
    match items_data subscription !! 0%nat with
    | None => throw_error "Subscription has no items"
    | Some item0 =>
        stripe_subscriptionItems_update stripe (item_id item0) quantity;;
        ctx_runMutation stripeSubscriptionId quantity;;
        mret VNull
    end.

(** Modelled from the spec: [createCheckoutSession] is a method of the
    client class in src/client/index.ts, which is not among the sources;
    only its test is (src/client/index.test.ts, lines 44-60).  Spec,
    Testable properties: "requesting a checkout session with both
    promotion-code allowance and an explicit discount list fails
    synchronously before any remote or local write occurs"; the test
    expects the message below.  Otherwise the session is requested from
    the provider with the client's key. *)
Definition createCheckoutSession (apiKey : string) (args : CheckoutArgs.t)
  : Action Value :=
  if truthy (VBool <$> CheckoutArgs.allowPromotionCodes args)
     && bool_decide (is_Some (CheckoutArgs.discounts args)) then
    throw_error "Cannot use both allowPromotionCodes and discounts"
  else
    stripe_checkout_sessions_create apiKey args.

(** The calls an action made, run from world [w]. *)
Definition effects {A} (a : Action A) (w : World) : list Effect :=
  drop (length (trace w)) (trace (a w).2).

(** A step of [updateSubscriptionQuantity] ahead of the local write
    fails: the key is missing, the retrieve fails, the subscription has no
    items, or the item update fails. *)
Inductive fails_before_write (id : string) (quantity : Z) (w : World)
  : Prop :=
| missing_key :
    truthy (VStr <$> env w !! "STRIPE_SECRET_KEY") = false →
    fails_before_write id quantity w
| retrieve_fails key e s :
    env w !! "STRIPE_SECRET_KEY" = Some key →
    subscriptions_retrieve key id (remote w) = (Throw e, s) →
    fails_before_write id quantity w
| no_items key sub s :
    env w !! "STRIPE_SECRET_KEY" = Some key →
    subscriptions_retrieve key id (remote w) = (Ok sub, s) →
    items_data sub = [] →
    fails_before_write id quantity w
| update_fails key sub s item rest e s' :
    env w !! "STRIPE_SECRET_KEY" = Some key →
    subscriptions_retrieve key id (remote w) = (Ok sub, s) →
    items_data sub = item :: rest →
    subscriptionItems_update key (item_id item) quantity s = (Throw e, s') →
    fails_before_write id quantity w.

End Actions.

(** ** Notions the properties are stated with *)

(** A record is plain when it is a stored row read without its system
    fields: it has neither [_id] nor [_creationTime], and every other field
    is the stored one. *)
Definition plain_record_of (ctx : Db) (t : string) (r : Doc) : Prop :=
  ∃ i row, rows ctx t !! i = Some row ∧ r = strip (document t i row) ∧
    r !! "_id" = None ∧ r !! "_creationTime" = None ∧
    ∀ k, k ≠ "_id" → k ≠ "_creationTime" → r !! k = fields row !! k.

(** The object [createOrUpdateCustomer] patches an existing customer
    with, and the one it inserts. *)
Definition customer_patch (args : CustomerArgs.t) : Literal :=
  [ ("email", VStr <$> CustomerArgs.email args);
    ("name", VStr <$> CustomerArgs.name args);
    ("metadata", CustomerArgs.metadata args) ].

Definition customer_object (args : CustomerArgs.t) : Literal :=
  ("stripeCustomerId", Some (VStr (CustomerArgs.stripeCustomerId args)))
  :: customer_patch args.

(** The object [updateSubscriptionMetadata] patches the subscription
    with. *)
Definition subscription_patch (args : MetadataArgs.t) : Literal :=
  [ ("metadata", Some (MetadataArgs.metadata args));
    ("orgId", VStr <$> MetadataArgs.orgId args);
    ("userId", VStr <$> MetadataArgs.userId args) ].

(** "Whose active flag is true", of a returned record. *)
Definition active_flag_true (r : Doc) : bool :=
  match r !! "active" with
  | Some (VBool true) => true
  | _ => false
  end.

(** The tables the records of an answer come from. *)
Definition tables_read (c : QueryCall) : list string :=
  match c with
  | GetProduct _ | ListProducts | ListActiveProducts => ["products"]
  | GetProductWithPrices _ => ["products"; "prices"]
  | GetPrice _ | ListPrices | ListActivePrices | ListPricesByProduct _
  | ListActivePricesByProduct _ | GetPriceByLookupKey _ => ["prices"]
  | GetCustomer _ => ["customers"]
  | GetSubscription _ | ListSubscriptions _ | GetSubscriptionByOrgId _
  | ListSubscriptionsByUserId _ => ["subscriptions"]
  | GetPayment _ | ListPayments _ | ListPaymentsByUserId _
  | ListPaymentsByOrgId _ => ["payments"]
  | ListInvoices _ | ListInvoicesByOrgId _ | ListInvoicesByUserId _ =>
      ["invoices"]
  end.

(** ** A sample store *)

Module Sample.

Definition product_row : Row :=
  {| creationTime := 10;
     fields := object [ ("stripeProductId", Some (VStr "prod_1"));
                        ("name", Some (VStr "Seats"));
                        ("active", Some (VBool true)) ] |}.

Definition price_row (i : string) (active : bool) (t : Z) : Row :=
  {| creationTime := t;
     fields := object [ ("stripePriceId", Some (VStr i));
                        ("stripeProductId", Some (VStr "prod_1"));
                        ("active", Some (VBool active));
                        ("currency", Some (VStr "usd"));
                        ("type", Some (VStr "recurring")) ] |}.

Definition customer_row : Row :=
  {| creationTime := 13;
     fields := object [ ("stripeCustomerId", Some (VStr "cus_1"));
                        ("email", Some (VStr "a@example.com"));
                        ("name", Some (VStr "Ada")) ] |}.

Definition subscription_row : Row :=
  {| creationTime := 14;
     fields := object [ ("stripeSubscriptionId", Some (VStr "sub_1"));
                        ("stripeCustomerId", Some (VStr "cus_1"));
                        ("status", Some (VStr "active"));
                        ("currentPeriodEnd", Some (VNum 1700000000));
                        ("cancelAtPeriodEnd", Some (VBool false));
                        ("quantity", Some (VNum 3));
                        ("priceId", Some (VStr "price_1"));
                        ("orgId", Some (VStr "org_1"));
                        ("userId", Some (VStr "user_1")) ] |}.

Definition store : Db :=
  {| db_tables :=
       list_to_map
         [ ("products", [product_row]);
           ("prices", [price_row "price_1" true 11;
                       price_row "price_2" false 12]);
           ("customers", [customer_row]);
           ("subscriptions", [subscription_row]) ];
     ticks := 15 |}.

Definition metadata_args (i : string) : MetadataArgs.t :=
  {| MetadataArgs.stripeSubscriptionId := i;
     MetadataArgs.metadata := VObj [("plan", VStr "team")];
     MetadataArgs.orgId := Some "org_2";
     MetadataArgs.userId := None |}.

Definition customer_args (i : string) : CustomerArgs.t :=
  {| CustomerArgs.stripeCustomerId := i;
     CustomerArgs.email := None;
     CustomerArgs.name := Some "Ada L.";
     CustomerArgs.metadata := None |}.

(** A provider with no state of its own: every subscription has the one
    item [si_1]; item updates are accepted or rejected as [accepts] says. *)
Definition retrieve (key i : string) (s : unit) : result Subscription * unit :=
  (Ok {| items_data := [ {| item_id := "si_1" |} ] |}, s).

Definition retrieve_down (key i : string) (s : unit)
  : result Subscription * unit :=
  (Throw "No such subscription", s).

Definition update (accepts : bool) (key item : string) (quantity : Z)
    (s : unit) : result unit * unit :=
  (if accepts then Ok tt else Throw "Invalid quantity", s).

(** A stand-in for the local mutation: it commits without writing. *)
Definition internal (i : string) (quantity : Z) : Mutation Value := mret VNull.

Definition world : @World unit :=
  {| env := {[ "STRIPE_SECRET_KEY" := "sk_test_123" ]};
     remote := tt;
     local := store;
     trace := [] |}.

Definition checkout_args : CheckoutArgs.t :=
  {| CheckoutArgs.priceId := "price_123";
     CheckoutArgs.mode := "payment";
     CheckoutArgs.successUrl := "https://example.com/success";
     CheckoutArgs.cancelUrl := "https://example.com/cancel";
     CheckoutArgs.allowPromotionCodes := Some true;
     CheckoutArgs.discounts := Some [ VObj [("coupon", VStr "coupon_123")] ] |}.

Definition sessions_create (key : string) (args : CheckoutArgs.t) (s : unit)
  : result Value * unit :=
  (Ok (VObj [("id", VStr "cs_1")]), s).

End Sample.

(** ** Lookups and listings by key *)

(** The table, the field and the key of a point lookup through
    [.unique()]. *)
Definition lookup_of (c : QueryCall) : option (string * string * string) :=
  match c with
  | GetProduct i => Some ("products", "stripeProductId", i)
  | GetPrice i => Some ("prices", "stripePriceId", i)
  | GetPriceByLookupKey k => Some ("prices", "lookupKey", k)
  | GetCustomer i => Some ("customers", "stripeCustomerId", i)
  | GetSubscription i => Some ("subscriptions", "stripeSubscriptionId", i)
  | GetPayment i => Some ("payments", "stripePaymentIntentId", i)
  | _ => None
  end.

(** The table, the field and the key of a listing through an index. *)
Definition listing_of (c : QueryCall) : option (string * string * string) :=
  match c with
  | ListPricesByProduct i => Some ("prices", "stripeProductId", i)
  | ListSubscriptions i => Some ("subscriptions", "stripeCustomerId", i)
  | ListSubscriptionsByUserId u => Some ("subscriptions", "userId", u)
  | ListPayments i => Some ("payments", "stripeCustomerId", i)
  | ListPaymentsByUserId u => Some ("payments", "userId", u)
  | ListPaymentsByOrgId o => Some ("payments", "orgId", o)
  | ListInvoices i => Some ("invoices", "stripeCustomerId", i)
  | ListInvoicesByOrgId o => Some ("invoices", "orgId", o)
  | ListInvoicesByUserId u => Some ("invoices", "userId", u)
  | _ => None
  end.

Module Broken.

(** A store in which two customers and two subscriptions share an external
    id. *)
Definition store : Db :=
  {| db_tables :=
       list_to_map
         [ ("customers", [Sample.customer_row; Sample.customer_row]);
           ("subscriptions",
            [Sample.subscription_row; Sample.subscription_row]) ];
     ticks := 20 |}.

End Broken.

(** ** The [returns] declarations of the queries *)

(** The three shapes [returns] has in public.ts, over the validators of the
    tables: [v.union(t, v.null())], [v.array(t)], and
    [v.union(v.object({ product: p, prices: v.array(q) }), v.null())]. *)
Inductive Returns : Type :=
| returns_union_null (t : TableDefinition)
| returns_array (t : TableDefinition)
| returns_product_prices_or_null (p q : TableDefinition).

(** The [returns] of each query. *)
Definition returns (c : QueryCall) : Returns :=
  match c with
  | GetProduct _ => returns_union_null schema.products
  | ListProducts | ListActiveProducts => returns_array schema.products
  | GetPrice _ | GetPriceByLookupKey _ => returns_union_null schema.prices
  | ListPrices | ListActivePrices | ListPricesByProduct _
  | ListActivePricesByProduct _ => returns_array schema.prices
  | GetProductWithPrices _ =>
      returns_product_prices_or_null schema.products schema.prices
  | GetCustomer _ => returns_union_null schema.customers
  | GetSubscription _ | GetSubscriptionByOrgId _ =>
      returns_union_null schema.subscriptions
  | ListSubscriptions _ | ListSubscriptionsByUserId _ =>
      returns_array schema.subscriptions
  | GetPayment _ => returns_union_null schema.payments
  | ListPayments _ | ListPaymentsByUserId _ | ListPaymentsByOrgId _ =>
      returns_array schema.payments
  | ListInvoices _ | ListInvoicesByOrgId _ | ListInvoicesByUserId _ =>
      returns_array schema.invoices
  end.

(** The check of an answer against a [returns] declaration. *)
Definition accepts (v : Returns) (a : Answer) : bool :=
  match v, a with
  | returns_union_null t, ARecord None => true
  | returns_union_null t, ARecord (Some r) => conforms t r
  | returns_array t, AList l => forallb (conforms t) l
  | returns_product_prices_or_null p q, AProductWithPrices None => true
  | returns_product_prices_or_null p q, AProductWithPrices (Some r) =>
      conforms p (product r) && forallb (conforms q) (prices r)
  | _, _ => false
  end.

(** * Properties *)

(** ** Objects *)

Lemma lookup_shallow_merge (o : Literal) (d : Doc) (k : string) :
  shallow_merge d o !! k = from_option id (d !! k) (assigned o k).
Proof.
  revert d. induction o as [|[k' ov] o IH]; intros d; [done|].
  change (shallow_merge d ((k', ov) :: o))
    with (shallow_merge (match ov with
                         | Some v => <[k' := v]> d
                         | None => delete k' d
                         end) o).
  rewrite IH. simpl. destruct (assigned o k) as [x|]; [done|].
  case_decide as Hk; simpl.
  - subst k'. destruct ov; [apply lookup_insert_eq | apply lookup_delete_eq].
  - destruct ov; [by apply lookup_insert_ne | by apply lookup_delete_ne].
Qed.

Lemma lookup_object (o : Literal) (k : string) :
  object o !! k = from_option id None (assigned o k).
Proof. unfold object. rewrite lookup_shallow_merge. by rewrite lookup_empty. Qed.

Lemma shallow_merge_idemp (o : Literal) (d : Doc) :
  shallow_merge (shallow_merge d o) o = shallow_merge d o.
Proof.
  apply map_eq. intros k. rewrite (lookup_shallow_merge o (shallow_merge d o)).
  destruct (assigned o k) as [x|] eqn:E; simpl; [|done].
  by rewrite lookup_shallow_merge, E.
Qed.


Lemma strip_id (d : Doc) : strip d !! "_id" = None.
Proof. unfold strip. by rewrite lookup_delete_ne, lookup_delete_eq. Qed.

Lemma strip_creationTime (d : Doc) : strip d !! "_creationTime" = None.
Proof. unfold strip. by rewrite lookup_delete_eq. Qed.

Lemma strip_other (d : Doc) (k : string) :
  k ≠ "_id" → k ≠ "_creationTime" → strip d !! k = d !! k.
Proof. intros. unfold strip. by rewrite !lookup_delete_ne. Qed.

Lemma document_id t i r : document t i r !! "_id" = Some (VId t i).
Proof. unfold document. by rewrite lookup_insert_eq. Qed.

Lemma document_creationTime t i r :
  document t i r !! "_creationTime" = Some (VNum (creationTime r)).
Proof. unfold document. by rewrite lookup_insert_ne, lookup_insert_eq. Qed.

Lemma document_other t i r (k : string) :
  k ≠ "_id" → k ≠ "_creationTime" → document t i r !! k = fields r !! k.
Proof. intros. unfold document. by rewrite !lookup_insert_ne. Qed.

(** ** Reading the store *)

Lemma lookup_query ctx t i :
  query ctx t !! i = document t i <$> rows ctx t !! i.
Proof. apply list_lookup_imap. Qed.

Lemma elem_of_query ctx t (d : Doc) :
  d ∈ query ctx t ↔ ∃ i r, rows ctx t !! i = Some r ∧ d = document t i r.
Proof.
  rewrite list_elem_of_lookup. split.
  - intros [i Hi]. rewrite lookup_query in Hi.
    destruct (rows ctx t !! i) as [r|] eqn:E; simplify_eq/=. eauto.
  - intros (i & r & Hr & ->). exists i. by rewrite lookup_query, Hr.
Qed.

Lemma length_query ctx t : length (query ctx t) = length (rows ctx t).
Proof. apply length_imap. Qed.

Lemma elem_of_withIndex name range (docs : list Doc) (d : Doc) :
  d ∈ withIndex name range docs ↔ range d = true ∧ d ∈ docs.
Proof.
  unfold withIndex. rewrite list_elem_of_filter.
  by rewrite Is_true_true.
Qed.

Lemma unique_None (docs : list Doc) : unique docs = Ok None ↔ docs = [].
Proof. destruct docs as [|? [|]]; simpl; split; congruence. Qed.

Lemma unique_Some (docs : list Doc) (d : Doc) :
  unique docs = Ok (Some d) ↔ docs = [d].
Proof. destruct docs as [|? [|]]; simpl; split; congruence. Qed.

Lemma unique_Throw (docs : list Doc) :
  thrown (unique docs) ↔ 2 ≤ length docs.
Proof.
  destruct docs as [|? [|]]; simpl; split; try lia;
    try (intros [? ?]; congruence).
  intros _. by eexists.
Qed.

Lemma first_elem (docs : list Doc) (d : Doc) : first docs = Some d → d ∈ docs.
Proof. destruct docs; simpl; [done|]. intros [= ->]. apply list_elem_of_here. Qed.

Lemma q_eq_string field s (d : Doc) :
  q_eq field (KString s) d = true ↔ d !! field = Some (VStr s).
Proof.
  unfold q_eq. destruct (d !! field) as [[]|]; try (split; congruence).
  rewrite bool_decide_eq_true. split; congruence.
Qed.

Lemma q_eq_boolean field b (d : Doc) :
  q_eq field (KBoolean b) d = true ↔ d !! field = Some (VBool b).
Proof.
  unfold q_eq. destruct (d !! field) as [[]|]; try (split; congruence).
  rewrite bool_decide_eq_true. split; congruence.
Qed.

(** ** The query surface *)

Lemma strip_plain ctx t (d : Doc) :
  d ∈ query ctx t → plain_record_of ctx t (strip d).
Proof.
  rewrite elem_of_query. intros (i & row & Hrow & ->).
  exists i, row. split_and!; auto using strip_id, strip_creationTime.
  intros k H1 H2. by rewrite strip_other, document_other.
Qed.

Lemma data_or_null_unique_plain ctx t name range o (r : Doc) :
  unique (withIndex name range (query ctx t)) = Ok o →
  data_or_null o = Some r → plain_record_of ctx t r.
Proof.
  intros Hu Hr. destruct o as [d|]; simplify_eq/=.
  apply unique_Some in Hu. apply strip_plain.
  eapply elem_of_withIndex. rewrite Hu. apply list_elem_of_here.
Qed.

Lemma fmap_strip_plain ctx t (docs : list Doc) (r : Doc) :
  (∀ d, d ∈ docs → d ∈ query ctx t) →
  r ∈ strip <$> docs → plain_record_of ctx t r.
Proof.
  intros Hsub (d & -> & Hd)%list_elem_of_fmap. by apply strip_plain, Hsub.
Qed.

Lemma withIndex_sub name range (docs : list Doc) (d : Doc) :
  d ∈ withIndex name range docs → d ∈ docs.
Proof. by intros [_ ?]%elem_of_withIndex. Qed.

Ltac unfold_result :=
  unfold fmap, result_fmap, mbind, result_bind, mret, result_ret in *.

Ltac plain_here Hu Hr :=
  first
    [ apply strip_plain; eapply withIndex_sub;
      first [ rewrite Hu; apply list_elem_of_here
            | eapply first_elem; eassumption ]
    | eapply fmap_strip_plain; [|exact Hr];
      let d := fresh "d" in
      let Hd := fresh "Hd" in
      intros d Hd;
      repeat match type of Hd with
             | _ ∈ withIndex _ _ _ => apply withIndex_sub in Hd
             | _ ∈ filter _ _ => apply list_elem_of_filter in Hd as [_ Hd]
             end;
      exact Hd ].

Lemma run_query_plain ctx c a (r : Doc) :
  run_query ctx c = Ok a → r ∈ records a →
  ∃ t, t ∈ tables_read c ∧ plain_record_of ctx t r.
Proof.
  intros Hrun Hr.
  destruct c; simpl in Hrun.
  all: unfold getProduct, getPrice, getPriceByLookupKey, getCustomer,
         getSubscription, getPayment, listProducts, listActiveProducts,
         listPrices, listActivePrices, listPricesByProduct,
         listActivePricesByProduct, listSubscriptions,
         listSubscriptionsByUserId, listPayments, listPaymentsByUserId,
         listPaymentsByOrgId, listInvoices, listInvoicesByOrgId,
         listInvoicesByUserId, getProductWithPrices, getSubscriptionByOrgId,
         collect in Hrun;
       unfold_result.
  all: try match type of Hrun with
       | context [unique ?l] => destruct (unique l) as [o|] eqn:Hu
       end; simplify_eq/=.
  all: try (destruct o as [product|]; simplify_eq/=).
  all: try (apply unique_Some in Hu).
  all: try match type of Hr with
       | context [first ?l] =>
           destruct (first l) as [subscription|] eqn:Hf; simpl in Hr
       end.
  all: try by apply elem_of_nil in Hr.
  all: try (apply elem_of_cons in Hr as [->|Hr]).
  all: try by apply elem_of_nil in Hr.
  all: first
    [ eexists; split; [apply list_elem_of_here|]; plain_here Hu Hr
    | eexists; split; [apply list_elem_of_further, list_elem_of_here|];
      plain_here Hu Hr ].
Qed.

(** C7: every operation of the query surface returns plain records.  For
    every store and every query call that returns, each record of the
    answer (the record of a point lookup, the elements of a listing, the
    product and the prices of the compound read) has neither [_id] nor
    [_creationTime], and each of its other fields is, verbatim, the field
    of one stored row of the table the call reads. *)
Theorem query_surface_plain_records ctx c a (r : Doc) :
  run_query ctx c = Ok a → r ∈ records a →
  r !! "_id" = None ∧ r !! "_creationTime" = None ∧
  ∃ t i row, t ∈ tables_read c ∧ rows ctx t !! i = Some row ∧
    ∀ k, k ≠ "_id" → k ≠ "_creationTime" → r !! k = fields row !! k.
Proof.
  intros Hrun Hr.
  destruct (run_query_plain ctx c a r Hrun Hr)
    as (t & Ht & i & row & Hrow & _ & Hid & Hct & Hk).
  split_and!; [done..|]. by exists t, i, row.
Qed.

Lemma query_surface_plain_records_witness :
  let r := strip (document "prices" 1 (Sample.price_row "price_2" false 12)) in
  r !! "_id" = None ∧ r !! "_creationTime" = None ∧
  ∃ t i row, t ∈ tables_read (GetProductWithPrices "prod_1")
    ∧ rows Sample.store t !! i = Some row ∧
    ∀ k, k ≠ "_id" → k ≠ "_creationTime" → r !! k = fields row !! k.
Proof.
  apply (query_surface_plain_records Sample.store
           (GetProductWithPrices "prod_1")
           (AProductWithPrices (Some
              {| product := strip (document "products" 0 Sample.product_row);
                 prices :=
                   [ strip (document "prices" 0
                              (Sample.price_row "price_1" true 11));
                     strip (document "prices" 1
                              (Sample.price_row "price_2" false 12)) ] |}))).
  - vm_compute. reflexivity.
  - simpl. do 2 apply list_elem_of_further. apply list_elem_of_here.
Defined.

(** ** Listing by active flag *)

Lemma fmap_filter_local {A B} (f : A → B) (P : A → Prop) (Q : B → Prop)
    `{!∀ x, Decision (P x)} `{!∀ y, Decision (Q y)} (l : list A) :
  (∀ x, x ∈ l → P x ↔ Q (f x)) →
  f <$> filter P l = filter Q (f <$> l).
Proof.
  induction l as [|x l IH]; intros Hl; [done|].
  rewrite fmap_cons, !filter_cons.
  pose proof (Hl x (list_elem_of_here _ _)) as Hx.
  assert (f <$> filter P l = filter Q (f <$> l)) as IH'.
  { apply IH. intros y Hy. apply Hl. by apply list_elem_of_further. }
  destruct (decide (P x)), (decide (Q (f x))); try tauto.
  by rewrite fmap_cons, IH'.
Qed.

Lemma conforms_field def (d : Doc) k fv :
  conforms def d = true → (k, fv) ∈ validator def →
  validate_field fv (d !! k) = true.
Proof.
  unfold conforms. intros [Hall _]%andb_prop Hin.
  rewrite forallb_forall in Hall.
  apply (Hall (k, fv)). by apply list_elem_of_In.
Qed.

Lemma validate_field_boolean ov :
  validate_field v_boolean ov = true → ∃ b, ov = Some (VBool b).
Proof. destruct ov as [[]|]; simpl; try done. eauto. Qed.

Lemma price_active_boolean ctx (d : Doc) :
  table_conforms ctx "prices" → d ∈ query ctx "prices" →
  ∃ b, d !! "active" = Some (VBool b).
Proof.
  intros Hc (i & row & Hrow & ->)%elem_of_query.
  rewrite document_other by done.
  apply validate_field_boolean.
  eapply (conforms_field schema.prices).
  - apply Hc; [done|]. by eapply list_elem_of_lookup_2.
  - simpl. do 2 apply list_elem_of_further. apply list_elem_of_here.
Qed.

Lemma active_flag_true_strip (d : Doc) :
  active_flag_true (strip d) = q_eq "active" (KBoolean true) d.
Proof.
  unfold active_flag_true, q_eq. rewrite strip_other by done.
  by destruct (d !! "active") as [[|[]| | | | |]|].
Qed.

Lemma listActiveProducts_eq ctx :
  ∃ all, listProducts ctx = Ok all ∧
    listActiveProducts ctx = Ok (filter (λ r, active_flag_true r) all).
Proof.
  eexists. split; [reflexivity|].
  unfold listActiveProducts, withIndex, collect. simpl. f_equal.
  apply fmap_filter_local. intros d _.
  by rewrite active_flag_true_strip.
Qed.

Lemma listActivePricesByProduct_eq ctx i :
  table_conforms ctx "prices" →
  ∃ all, listPricesByProduct ctx i = Ok all ∧
    listActivePricesByProduct ctx i
    = Ok (filter (λ r, active_flag_true r) all).
Proof.
  intros Hc. eexists. split; [reflexivity|].
  unfold listActivePricesByProduct, collect. simpl. f_equal.
  apply fmap_filter_local. intros d Hd%withIndex_sub.
  destruct (price_active_boolean ctx d Hc Hd) as [b Hb].
  rewrite active_flag_true_strip. unfold q_eq. rewrite Hb. simpl.
  by destruct b.
Qed.

(** C8: listing by active flag agrees with filtering the full listing.
    On a store whose prices conform to the schema, [listActiveProducts]
    returns the records of [listProducts] whose [active] is [true], and
    [listActivePricesByProduct] those of [listPricesByProduct] for the same
    product, as the same elements up to order (here in the same order). *)
Theorem active_listings_filter_full_listings ctx i :
  table_conforms ctx "prices" →
  (∃ all act, listProducts ctx = Ok all ∧ listActiveProducts ctx = Ok act ∧
     act ≡ₚ filter (λ r, active_flag_true r) all) ∧
  (∃ all act, listPricesByProduct ctx i = Ok all ∧
     listActivePricesByProduct ctx i = Ok act ∧
     act ≡ₚ filter (λ r, active_flag_true r) all).
Proof.
  intros Hc. split.
  - destruct (listActiveProducts_eq ctx) as (all & H1 & H2).
    by eexists all, _.
  - destruct (listActivePricesByProduct_eq ctx i Hc) as (all & H1 & H2).
    by eexists all, _.
Qed.

Lemma active_listings_filter_full_listings_witness :
  table_conforms Sample.store "prices" ∧
  (∃ all act, listPricesByProduct Sample.store "prod_1" = Ok all ∧
     listActivePricesByProduct Sample.store "prod_1" = Ok act ∧
     act ≡ₚ filter (λ r, active_flag_true r) all).
Proof.
  assert (table_conforms Sample.store "prices") as Hc.
  { intros def r Hdef Hr. vm_compute in Hdef. injection Hdef as <-.
    change (rows Sample.store "prices")
      with [Sample.price_row "price_1" true 11;
            Sample.price_row "price_2" false 12] in Hr.
    apply elem_of_cons in Hr as [->|Hr]; [by vm_compute|].
    apply list_elem_of_singleton in Hr as ->. by vm_compute. }
  split; [exact Hc|].
  apply (active_listings_filter_full_listings Sample.store "prod_1" Hc).
Defined.

(** ** Lookup by external id *)

Lemma withIndex_keyed_by ctx t name field i :
  withIndex name (q_eq field (KString i)) (query ctx t)
  = keyed_by ctx t field i.
Proof. reflexivity. Qed.

Lemma elem_of_keyed_by ctx t field i (d : Doc) :
  d ∈ keyed_by ctx t field i
  ↔ d ∈ query ctx t ∧ d !! field = Some (VStr i).
Proof.
  unfold keyed_by. rewrite list_elem_of_filter, Is_true_true, q_eq_string.
  tauto.
Qed.

Lemma keyed_by_nil ctx t field i :
  keyed_by ctx t field i = []
  ↔ ¬ ∃ d : Doc, d ∈ query ctx t ∧ d !! field = Some (VStr i).
Proof.
  split.
  - intros Hnil (d & Hd). apply elem_of_keyed_by in Hd.
    rewrite Hnil in Hd. by apply elem_of_nil in Hd.
  - intros Hno. destruct (keyed_by ctx t field i) as [|d l] eqn:E; [done|].
    exfalso. apply Hno. exists d. apply elem_of_keyed_by.
    rewrite E. apply list_elem_of_here.
Qed.

Lemma unique_key_singleton ctx t field i (d : Doc) :
  unique_key ctx t field → d ∈ query ctx t → d !! field = Some (VStr i) →
  keyed_by ctx t field i = [d].
Proof.
  intros Hu Hd Hf. specialize (Hu i).
  assert (d ∈ keyed_by ctx t field i) as Hin by by apply elem_of_keyed_by.
  destruct (keyed_by ctx t field i) as [|d' [|]]; simpl in Hu; [|..|lia].
  - by apply elem_of_nil in Hin.
  - by apply list_elem_of_singleton in Hin as ->.
Qed.

(** C9: the compound read.  [getProductWithPrices] returns null exactly
    when no product has the given external id; on a store keyed by external
    id, for the product with that id it returns the product together with
    the records [listPricesByProduct] returns, which are the prices whose
    [stripeProductId] is the id, active or not, all without the system
    fields. *)
Theorem getProductWithPrices_product_and_its_prices ctx i :
  unique_key ctx "products" "stripeProductId" →
  (getProductWithPrices ctx i = Ok None
   ↔ ¬ ∃ d : Doc, d ∈ query ctx "products"
                  ∧ d !! "stripeProductId" = Some (VStr i)) ∧
  (∀ d : Doc, d ∈ query ctx "products" →
     d !! "stripeProductId" = Some (VStr i) →
     ∃ ps, listPricesByProduct ctx i = Ok ps ∧
       getProductWithPrices ctx i
       = Ok (Some {| product := strip d; prices := ps |}) ∧
       (∀ r, r ∈ ps ↔ ∃ p : Doc, p ∈ query ctx "prices"
                        ∧ p !! "stripeProductId" = Some (VStr i)
                        ∧ r = strip p) ∧
       (∀ r, r ∈ strip d :: ps →
          r !! "_id" = None ∧ r !! "_creationTime" = None)).
Proof.
  intros Hkey. split.
  - rewrite <- keyed_by_nil. unfold getProductWithPrices.
    rewrite !withIndex_keyed_by. unfold_result.
    destruct (keyed_by ctx "products" "stripeProductId" i) as [|d [|d' l]];
      simpl; (split; [intros ?; by simplify_eq|done]).
  - intros d Hd Hi. eexists. split; [reflexivity|].
    unfold getProductWithPrices. rewrite !withIndex_keyed_by.
    rewrite (unique_key_singleton _ _ _ _ d Hkey Hd Hi).
    unfold collect. split_and!; [done| |].
    + intros r. rewrite list_elem_of_fmap.
      setoid_rewrite elem_of_keyed_by. naive_solver.
    + intros r [->|Hr]%elem_of_cons;
        [by rewrite strip_id, strip_creationTime|].
      apply list_elem_of_fmap in Hr as (p & -> & _).
      by rewrite strip_id, strip_creationTime.
Qed.

Lemma getProductWithPrices_product_and_its_prices_witness :
  unique_key Sample.store "products" "stripeProductId" ∧
  ∃ ps, listPricesByProduct Sample.store "prod_1" = Ok ps ∧
    getProductWithPrices Sample.store "prod_1"
    = Ok (Some {| product := strip (document "products" 0 Sample.product_row);
                  prices := ps |}).
Proof.
  assert (unique_key Sample.store "products" "stripeProductId") as Hkey.
  { intros i. unfold keyed_by. etransitivity; [apply length_filter|].
    by rewrite length_query. }
  split; [exact Hkey|].
  destruct (getProductWithPrices_product_and_its_prices
              Sample.store "prod_1" Hkey) as [_ Hsome].
  destruct (Hsome (document "products" 0 Sample.product_row))
    as (ps & Hps & Hget & _).
  - apply elem_of_query. by exists 0, Sample.product_row.
  - reflexivity.
  - by exists ps.
Defined.

(** ** Writing the store *)

Lemma rows_set_rows t l ctx t' :
  rows (set_rows t l ctx) t' = if decide (t = t') then l else rows ctx t'.
Proof.
  unfold rows, set_rows. simpl. rewrite lookup_insert.
  by case_decide.
Qed.

Lemma set_rows_set_rows t l l' ctx :
  set_rows t l (set_rows t l' ctx) = set_rows t l ctx.
Proof. unfold set_rows. simpl. by rewrite insert_insert_eq. Qed.

Lemma imap_insert {A B} (f : nat → A → B) (l : list A) j y :
  imap f (<[j := y]> l) = <[j := f j y]> (imap f l).
Proof.
  apply list_eq. intros n. rewrite list_lookup_imap.
  destruct (decide (j = n)) as [->|Hne].
  - destruct (decide (n < length l)) as [Hlt|Hge].
    + rewrite !list_lookup_insert_eq by (by rewrite ?length_imap). done.
    + rewrite !list_insert_ge by (rewrite ?length_imap; lia).
      by rewrite list_lookup_imap.
  - rewrite !list_lookup_insert_ne by done. by rewrite list_lookup_imap.
Qed.

Lemma query_set_rows_insert ctx t j r :
  query (set_rows t (<[j := r]> (rows ctx t)) ctx) t
  = <[j := document t j r]> (query ctx t).
Proof.
  unfold query. rewrite rows_set_rows. case_decide; [|done].
  apply imap_insert.
Qed.

Lemma filter_insert {A} (P : A → Prop) `{!∀ x, Decision (P x)}
    (l : list A) j x y :
  l !! j = Some x →
  filter P l = filter P (take j l) ++ filter P (x :: drop (S j) l)
  ∧ filter P (<[j := y]> l)
    = filter P (take j l) ++ filter P (y :: drop (S j) l).
Proof.
  intros Hj. split.
  - rewrite <- (take_drop_middle l j x Hj) at 1. apply filter_app.
  - rewrite insert_take_drop by by eapply lookup_lt_Some. apply filter_app.
Qed.

Lemma filter_insert_singleton {A} (P : A → Prop) `{!∀ x, Decision (P x)}
    (l : list A) j x y :
  l !! j = Some x → filter P l = [x] → P x → P y →
  filter P (<[j := y]> l) = [y].
Proof.
  intros Hj Hone Hx Hy.
  destruct (filter_insert P l j x y Hj) as [H1 ->].
  rewrite Hone in H1.
  rewrite (filter_cons_True P x) in H1 by done.
  rewrite (filter_cons_True P y) by done.
  destruct (filter P (take j l)) as [|a la]; simpl in *.
  - injection H1 as <-. done.
  - injection H1 as _ H1. by destruct la.
Qed.

Lemma filter_insert_length {A} (P : A → Prop) `{!∀ x, Decision (P x)}
    (l : list A) j x y :
  l !! j = Some x → (P x ↔ P y) →
  length (filter P (<[j := y]> l)) = length (filter P l).
Proof.
  intros Hj Hxy.
  destruct (filter_insert P l j x y Hj) as [-> ->].
  rewrite !length_app. f_equal.
  rewrite !filter_cons.
  destruct (decide (P x)), (decide (P y)); tauto || done.
Qed.

Ltac unfold_mutation :=
  unfold mbind, mutation_bind, mret, mutation_ret, reading, throw in *.

Lemma db_patch_document ctx t j r o :
  rows ctx t !! j = Some r →
  db_patch (document t j r !! "_id") o ctx
  = Ok (tt, set_rows t (<[j := patch_row o r]> (rows ctx t)) ctx).
Proof. intros Hr. rewrite document_id. unfold db_patch. by rewrite Hr. Qed.

Lemma keyed_by_singleton_row ctx t field i (d : Doc) :
  keyed_by ctx t field i = [d] →
  ∃ j r, rows ctx t !! j = Some r ∧ d = document t j r
         ∧ d !! field = Some (VStr i).
Proof.
  intros Hone.
  assert (d ∈ keyed_by ctx t field i) as Hd
    by (rewrite Hone; apply list_elem_of_here).
  apply elem_of_keyed_by in Hd as [Hd Hf].
  apply elem_of_query in Hd as (j & r & Hr & ->). eauto.
Qed.

(** *** updateSubscriptionMetadata *)

Lemma updateSubscriptionMetadata_none args ctx :
  keyed_by ctx "subscriptions" "stripeSubscriptionId"
    (MetadataArgs.stripeSubscriptionId args) = [] →
  updateSubscriptionMetadata args ctx
  = Throw ("Subscription " ++ MetadataArgs.stripeSubscriptionId args
           ++ " not found in database").
Proof.
  intros Hnone. unfold updateSubscriptionMetadata. unfold_mutation.
  rewrite withIndex_keyed_by, Hnone. done.
Qed.

Lemma updateSubscriptionMetadata_one args ctx j r :
  rows ctx "subscriptions" !! j = Some r →
  keyed_by ctx "subscriptions" "stripeSubscriptionId"
    (MetadataArgs.stripeSubscriptionId args)
  = [document "subscriptions" j r] →
  updateSubscriptionMetadata args ctx
  = Ok (VNull,
        set_rows "subscriptions"
          (<[j := patch_row (subscription_patch args) r]>
             (rows ctx "subscriptions")) ctx).
Proof.
  intros Hr Hone. unfold updateSubscriptionMetadata. unfold_mutation.
  rewrite withIndex_keyed_by, Hone. simpl.
  by rewrite (db_patch_document _ _ _ _ _ Hr).
Qed.

Lemma updateSubscriptionMetadata_many args ctx :
  2 ≤ length (keyed_by ctx "subscriptions" "stripeSubscriptionId"
                (MetadataArgs.stripeSubscriptionId args)) →
  updateSubscriptionMetadata args ctx
  = Throw "unique() query returned more than one result".
Proof.
  intros Hmany. unfold updateSubscriptionMetadata. unfold_mutation.
  rewrite withIndex_keyed_by.
  destruct (keyed_by _ _ _ _) as [|? [|? ?]]; simpl in *; done || lia.
Qed.

(** C2: [updateSubscriptionMetadata] for a subscription id no local record
    has throws, and the store is left as it was; when exactly one record
    has the id, it succeeds and returns null. *)
Theorem updateSubscriptionMetadata_unknown_throws args ctx :
  ((¬ ∃ d : Doc, d ∈ query ctx "subscriptions"
        ∧ d !! "stripeSubscriptionId"
          = Some (VStr (MetadataArgs.stripeSubscriptionId args))) →
   updateSubscriptionMetadata args ctx
   = Throw ("Subscription " ++ MetadataArgs.stripeSubscriptionId args
            ++ " not found in database")
   ∧ thrown (outcome (updateSubscriptionMetadata args) ctx)
   ∧ state_after (updateSubscriptionMetadata args) ctx = ctx) ∧
  (∀ d : Doc,
     keyed_by ctx "subscriptions" "stripeSubscriptionId"
       (MetadataArgs.stripeSubscriptionId args) = [d] →
     outcome (updateSubscriptionMetadata args) ctx = Ok VNull).
Proof.
  split.
  - intros Hnone%keyed_by_nil.
    pose proof (updateSubscriptionMetadata_none args ctx Hnone) as Hthrow.
    unfold thrown, outcome, state_after. rewrite Hthrow. eauto.
  - intros d Hone.
    destruct (keyed_by_singleton_row _ _ _ _ _ Hone) as (j & r & Hr & -> & _).
    unfold outcome. by rewrite (updateSubscriptionMetadata_one _ _ _ _ Hr Hone).
Qed.

Lemma updateSubscriptionMetadata_unknown_throws_witness :
  (updateSubscriptionMetadata (Sample.metadata_args "sub_404") Sample.store
   = Throw "Subscription sub_404 not found in database"
   ∧ state_after (updateSubscriptionMetadata (Sample.metadata_args "sub_404"))
       Sample.store = Sample.store)
  ∧ outcome (updateSubscriptionMetadata (Sample.metadata_args "sub_1"))
      Sample.store = Ok VNull.
Proof.
  split.
  - destruct (updateSubscriptionMetadata_unknown_throws
                (Sample.metadata_args "sub_404") Sample.store) as [Hthrow _].
    destruct Hthrow as (H1 & _ & H2); [|by split].
    apply keyed_by_nil. reflexivity.
  - destruct (updateSubscriptionMetadata_unknown_throws
                (Sample.metadata_args "sub_1") Sample.store) as [_ Hone].
    apply (Hone (document "subscriptions" 0 Sample.subscription_row)).
    reflexivity.
Defined.

Lemma lookup_patch_row_other o r k :
  assigned o k = None → fields (patch_row o r) !! k = fields r !! k.
Proof. intros Hk. simpl. by rewrite lookup_shallow_merge, Hk. Qed.

Lemma assigned_subscription_patch args k :
  k ≠ "metadata" → k ≠ "orgId" → k ≠ "userId" →
  assigned (subscription_patch args) k = None.
Proof. intros. simpl. by repeat case_decide. Qed.

Lemma rows_patched_other ctx t j r t' j' :
  (t', j') ≠ (t, j) →
  rows (set_rows t (<[j := r]> (rows ctx t)) ctx) t' !! j' = rows ctx t' !! j'.
Proof.
  intros Hne. rewrite rows_set_rows. case_decide as Ht; [subst t'|done].
  apply list_lookup_insert_ne. congruence.
Qed.

Lemma rows_patched_same ctx t j r r' :
  rows ctx t !! j = Some r →
  rows (set_rows t (<[j := r']> (rows ctx t)) ctx) t !! j = Some r'.
Proof.
  intros Hr. rewrite rows_set_rows. case_decide; [|done].
  apply list_lookup_insert_eq. by eapply lookup_lt_Some.
Qed.

Lemma lookup_patch_row o r k :
  fields (patch_row o r) !! k = from_option id (fields r !! k) (assigned o k).
Proof. apply lookup_shallow_merge. Qed.

(** C4: for the subscription it finds, [updateSubscriptionMetadata] writes
    the fields [metadata], [orgId] and [userId], and nothing else.  After
    the call the row holds the supplied metadata, and [orgId] and [userId]
    are the supplied ones, absent when the argument is omitted whatever the
    row held before; every other field of the row, its creation stamp, each
    other row of each table and the clock are as before. *)
Theorem updateSubscriptionMetadata_writes_three_fields args ctx (d : Doc) :
  keyed_by ctx "subscriptions" "stripeSubscriptionId"
    (MetadataArgs.stripeSubscriptionId args) = [d] →
  ∃ j r r',
    rows ctx "subscriptions" !! j = Some r ∧ d = document "subscriptions" j r ∧
    rows (state_after (updateSubscriptionMetadata args) ctx) "subscriptions"
      !! j = Some r' ∧
    fields r' !! "metadata" = Some (MetadataArgs.metadata args) ∧
    fields r' !! "orgId" = VStr <$> MetadataArgs.orgId args ∧
    fields r' !! "userId" = VStr <$> MetadataArgs.userId args ∧
    (MetadataArgs.orgId args = None → fields r' !! "orgId" = None) ∧
    (MetadataArgs.userId args = None → fields r' !! "userId" = None) ∧
    (∀ k, k ≠ "metadata" → k ≠ "orgId" → k ≠ "userId" →
          fields r' !! k = fields r !! k) ∧
    creationTime r' = creationTime r ∧
    (∀ t j', (t, j') ≠ ("subscriptions", j) →
       rows (state_after (updateSubscriptionMetadata args) ctx) t !! j'
       = rows ctx t !! j') ∧
    ticks (state_after (updateSubscriptionMetadata args) ctx) = ticks ctx.
Proof.
  intros Hone.
  destruct (keyed_by_singleton_row _ _ _ _ _ Hone) as (j & r & Hr & -> & _).
  exists j, r, (patch_row (subscription_patch args) r).
  unfold state_after.
  rewrite (updateSubscriptionMetadata_one _ _ _ _ Hr Hone).
  assert (fields (patch_row (subscription_patch args) r) !! "orgId"
          = VStr <$> MetadataArgs.orgId args) as Horg
    by by rewrite lookup_patch_row.
  assert (fields (patch_row (subscription_patch args) r) !! "userId"
          = VStr <$> MetadataArgs.userId args) as Huser
    by by rewrite lookup_patch_row.
  split_and!; try done.
  - by eapply rows_patched_same.
  - by rewrite lookup_patch_row.
  - intros Hnone. by rewrite Horg, Hnone.
  - intros Hnone. by rewrite Huser, Hnone.
  - intros k H1 H2 H3.
    by rewrite lookup_patch_row, assigned_subscription_patch.
  - intros t j' Hne. by apply rows_patched_other.
Qed.

Lemma updateSubscriptionMetadata_writes_three_fields_witness :
  keyed_by Sample.store "subscriptions" "stripeSubscriptionId" "sub_1"
  = [document "subscriptions" 0 Sample.subscription_row] ∧
  ∃ j r r',
    rows Sample.store "subscriptions" !! j = Some r ∧
    fields r !! "userId" = Some (VStr "user_1") ∧
    rows (state_after (updateSubscriptionMetadata (Sample.metadata_args "sub_1"))
            Sample.store) "subscriptions" !! j = Some r' ∧
    fields r' !! "orgId" = Some (VStr "org_2") ∧
    fields r' !! "userId" = None ∧
    fields r' !! "status" = fields r !! "status".
Proof.
  assert (keyed_by Sample.store "subscriptions" "stripeSubscriptionId" "sub_1"
          = [document "subscriptions" 0 Sample.subscription_row]) as Hone
    by reflexivity.
  split; [exact Hone|].
  destruct (updateSubscriptionMetadata_writes_three_fields
              (Sample.metadata_args "sub_1") Sample.store _ Hone)
    as (j & r & r' & Hr & Hd & Hr' & _ & Horg & _ & _ & Huser & Hk & _).
  exists j, r, r'. split_and!; [exact Hr| |exact Hr'|exact Horg
                               |by apply Huser|by apply Hk].
  assert (document "subscriptions" 0 Sample.subscription_row !! "userId"
          = document "subscriptions" j r !! "userId") as Hu by by rewrite Hd.
  rewrite (document_other _ j r) in Hu by done. rewrite <- Hu. reflexivity.
Defined.
(** *** createOrUpdateCustomer *)

Lemma createOrUpdateCustomer_none args ctx :
  keyed_by ctx "customers" "stripeCustomerId"
    (CustomerArgs.stripeCustomerId args) = [] →
  createOrUpdateCustomer args ctx
  = Ok (CustomerArgs.stripeCustomerId args,
        add_row "customers" (new_row (ticks ctx) (customer_object args)) ctx).
Proof.
  intros Hnone. unfold createOrUpdateCustomer. unfold_mutation.
  rewrite withIndex_keyed_by, Hnone. done.
Qed.

Lemma createOrUpdateCustomer_one args ctx j r :
  rows ctx "customers" !! j = Some r →
  keyed_by ctx "customers" "stripeCustomerId"
    (CustomerArgs.stripeCustomerId args) = [document "customers" j r] →
  createOrUpdateCustomer args ctx
  = Ok (CustomerArgs.stripeCustomerId args,
        set_rows "customers"
          (<[j := patch_row (customer_patch args) r]> (rows ctx "customers"))
          ctx).
Proof.
  intros Hr Hone. unfold createOrUpdateCustomer. unfold_mutation.
  rewrite withIndex_keyed_by, Hone. simpl.
  by rewrite (db_patch_document _ _ _ _ _ Hr).
Qed.

Lemma createOrUpdateCustomer_many args ctx :
  2 ≤ length (keyed_by ctx "customers" "stripeCustomerId"
                (CustomerArgs.stripeCustomerId args)) →
  createOrUpdateCustomer args ctx
  = Throw "unique() query returned more than one result".
Proof.
  intros Hmany. unfold createOrUpdateCustomer. unfold_mutation.
  rewrite withIndex_keyed_by.
  destruct (keyed_by _ _ _ _) as [|? [|? ?]]; simpl in *; done || lia.
Qed.

Lemma assigned_customer_patch args k :
  k ≠ "email" → k ≠ "name" → k ≠ "metadata" →
  assigned (customer_patch args) k = None.
Proof. intros. simpl. by repeat case_decide. Qed.

(** C10: on an existing customer, [createOrUpdateCustomer] overwrites
    [email], [name] and [metadata] with the supplied arguments: after the
    call each of the three is the argument, so a field the call omits is
    absent from the record even if it held a value before. *)
Theorem createOrUpdateCustomer_overwrites_with_arguments args ctx (d : Doc) :
  keyed_by ctx "customers" "stripeCustomerId"
    (CustomerArgs.stripeCustomerId args) = [d] →
  ∃ j r r',
    rows ctx "customers" !! j = Some r ∧ d = document "customers" j r ∧
    rows (state_after (createOrUpdateCustomer args) ctx) "customers" !! j
    = Some r' ∧
    fields r' !! "email" = VStr <$> CustomerArgs.email args ∧
    fields r' !! "name" = VStr <$> CustomerArgs.name args ∧
    fields r' !! "metadata" = CustomerArgs.metadata args ∧
    (CustomerArgs.email args = None → fields r' !! "email" = None) ∧
    (CustomerArgs.name args = None → fields r' !! "name" = None) ∧
    (CustomerArgs.metadata args = None → fields r' !! "metadata" = None) ∧
    (∀ k, k ≠ "email" → k ≠ "name" → k ≠ "metadata" →
          fields r' !! k = fields r !! k).
Proof.
  intros Hone.
  destruct (keyed_by_singleton_row _ _ _ _ _ Hone) as (j & r & Hr & -> & _).
  exists j, r, (patch_row (customer_patch args) r).
  unfold state_after.
  rewrite (createOrUpdateCustomer_one _ _ _ _ Hr Hone).
  assert (fields (patch_row (customer_patch args) r) !! "email"
          = VStr <$> CustomerArgs.email args) as Hemail
    by by rewrite lookup_patch_row.
  assert (fields (patch_row (customer_patch args) r) !! "name"
          = VStr <$> CustomerArgs.name args) as Hname
    by by rewrite lookup_patch_row.
  assert (fields (patch_row (customer_patch args) r) !! "metadata"
          = CustomerArgs.metadata args) as Hmeta
    by by rewrite lookup_patch_row.
  split_and!; try done.
  - by eapply rows_patched_same.
  - intros Hnone. by rewrite Hemail, Hnone.
  - intros Hnone. by rewrite Hname, Hnone.
  - intros Hnone. by rewrite Hmeta, Hnone.
  - intros k H1 H2 H3.
    by rewrite lookup_patch_row, assigned_customer_patch.
Qed.

Lemma createOrUpdateCustomer_overwrites_with_arguments_witness :
  keyed_by Sample.store "customers" "stripeCustomerId" "cus_1"
  = [document "customers" 0 Sample.customer_row] ∧
  ∃ j r r',
    rows Sample.store "customers" !! j = Some r ∧
    fields r !! "email" = Some (VStr "a@example.com") ∧
    rows (state_after (createOrUpdateCustomer (Sample.customer_args "cus_1"))
            Sample.store) "customers" !! j = Some r' ∧
    fields r' !! "email" = None ∧
    fields r' !! "name" = Some (VStr "Ada L.").
Proof.
  assert (keyed_by Sample.store "customers" "stripeCustomerId" "cus_1"
          = [document "customers" 0 Sample.customer_row]) as Hone
    by reflexivity.
  split; [exact Hone|].
  destruct (createOrUpdateCustomer_overwrites_with_arguments
              (Sample.customer_args "cus_1") Sample.store _ Hone)
    as (j & r & r' & Hr & Hd & Hr' & _ & Hname & _ & Hemail & _).
  exists j, r, r'. split_and!; [exact Hr| |exact Hr'|by apply Hemail
                               |exact Hname].
  assert (document "customers" 0 Sample.customer_row !! "email"
          = document "customers" j r !! "email") as He by by rewrite Hd.
  rewrite (document_other _ j r) in He by done. rewrite <- He. reflexivity.
Defined.

(** *** Inserting, then finding *)

Lemma rows_add_row t r ctx t' :
  rows (add_row t r ctx) t'
  = if decide (t = t') then rows ctx t ++ [r] else rows ctx t'.
Proof.
  unfold rows at 1. unfold add_row. simpl. rewrite lookup_insert.
  by case_decide.
Qed.

Lemma query_add_row t r ctx :
  query (add_row t r ctx) t
  = query ctx t ++ [document t (length (rows ctx t)) r].
Proof.
  unfold query. rewrite rows_add_row. case_decide; [|done].
  rewrite imap_app. simpl. by rewrite Nat.add_0_r.
Qed.

Lemma keyed_by_add_row t r ctx field i :
  keyed_by (add_row t r ctx) t field i
  = keyed_by ctx t field i
    ++ (if q_eq field (KString i) (document t (length (rows ctx t)) r)
        then [document t (length (rows ctx t)) r] else []).
Proof.
  unfold keyed_by. rewrite query_add_row, filter_app. f_equal.
  rewrite filter_cons, filter_nil.
  destruct (q_eq field (KString i) _); by case_decide.
Qed.


Lemma keyed_by_patched ctx t field i j r r' :
  rows ctx t !! j = Some r →
  fields r' !! field = fields r !! field →
  field ≠ "_id" → field ≠ "_creationTime" →
  length (keyed_by (set_rows t (<[j := r']> (rows ctx t)) ctx) t field i)
  = length (keyed_by ctx t field i).
Proof.
  intros Hr Hf H1 H2. unfold keyed_by. rewrite query_set_rows_insert.
  apply (filter_insert_length _ _ _ (document t j r)).
  - by rewrite lookup_query, Hr.
  - unfold q_eq. by rewrite !document_other, Hf.
Qed.

Lemma keyed_by_patched_singleton ctx t field i j r r' :
  rows ctx t !! j = Some r →
  fields r' !! field = fields r !! field →
  field ≠ "_id" → field ≠ "_creationTime" →
  keyed_by ctx t field i = [document t j r] →
  keyed_by (set_rows t (<[j := r']> (rows ctx t)) ctx) t field i
  = [document t j r'].
Proof.
  intros Hr Hf H1 H2 Hone.
  assert (q_eq field (KString i) (document t j r) = true) as Hq.
  { apply q_eq_string.
    assert (document t j r ∈ keyed_by ctx t field i) as Hin
      by (rewrite Hone; apply list_elem_of_here).
    by apply elem_of_keyed_by in Hin as [_ ?]. }
  unfold keyed_by. rewrite query_set_rows_insert.
  apply (filter_insert_singleton _ _ _ (document t j r)).
  - by rewrite lookup_query, Hr.
  - exact Hone.
  - by rewrite Hq.
  - unfold q_eq in *. rewrite document_other in * by done.
    by rewrite Hf, Hq.
Qed.

(** *** createOrUpdateCustomer is an upsert *)

Lemma customer_patch_keeps_id args r :
  fields (patch_row (customer_patch args) r) !! "stripeCustomerId"
  = fields r !! "stripeCustomerId".
Proof. by rewrite lookup_patch_row, assigned_customer_patch. Qed.

Lemma patch_row_idemp o r : patch_row o (patch_row o r) = patch_row o r.
Proof. unfold patch_row. simpl. by rewrite shallow_merge_idemp. Qed.


Lemma new_customer_id args now :
  fields (new_row now (customer_object args)) !! "stripeCustomerId"
  = Some (VStr (CustomerArgs.stripeCustomerId args)).
Proof. simpl. by rewrite lookup_object. Qed.


Lemma createOrUpdateCustomer_keeps_unique_key args ctx :
  unique_key ctx "customers" "stripeCustomerId" →
  unique_key (state_after (createOrUpdateCustomer args) ctx)
    "customers" "stripeCustomerId".
Proof.
  intros Hu i.
  destruct (keyed_by ctx "customers" "stripeCustomerId"
              (CustomerArgs.stripeCustomerId args)) as [|d [|d' l]] eqn:Hk.
  - unfold state_after. rewrite (createOrUpdateCustomer_none _ _ Hk).
    rewrite keyed_by_add_row.
    destruct (q_eq _ _ _) eqn:Hq.
    + apply q_eq_string in Hq. rewrite document_other in Hq by done.
      rewrite new_customer_id in Hq. injection Hq as <-.
      by rewrite Hk.
    + rewrite app_nil_r. apply Hu.
  - destruct (keyed_by_singleton_row _ _ _ _ _ Hk) as (j & r & Hr & -> & _).
    unfold state_after. rewrite (createOrUpdateCustomer_one _ _ _ _ Hr Hk).
    rewrite (keyed_by_patched _ _ _ _ _ r); try done.
    apply customer_patch_keeps_id.
  - specialize (Hu (CustomerArgs.stripeCustomerId args)).
    rewrite Hk in Hu. simpl in Hu. lia.
Qed.



(** ** The soft delete *)

Lemma product_deleted_one ctx i j r :
  rows ctx "products" !! j = Some r →
  keyed_by ctx "products" "stripeProductId" i = [document "products" j r] →
  product_deleted i ctx
  = Ok (VNull,
        set_rows "products"
          (<[j := patch_row [("active", Some (VBool false))] r]>
             (rows ctx "products")) ctx).
Proof.
  intros Hr Hone. unfold product_deleted. unfold_mutation.
  rewrite withIndex_keyed_by, Hone. simpl.
  by rewrite (db_patch_document _ _ _ _ _ Hr).
Qed.

Lemma product_deleted_none ctx i :
  keyed_by ctx "products" "stripeProductId" i = [] →
  product_deleted i ctx = Ok (VNull, ctx).
Proof.
  intros Hnone. unfold product_deleted. unfold_mutation.
  by rewrite withIndex_keyed_by, Hnone.
Qed.

Lemma listProducts_all ctx (p : Doc) :
  p ∈ query ctx "products" →
  ∃ l, listProducts ctx = Ok l ∧ strip p ∈ l
       ∧ length l = length (rows ctx "products").
Proof.
  intros Hp. eexists. split; [reflexivity|]. unfold collect. split.
  - apply list_elem_of_fmap. eauto.
  - by rewrite length_fmap, length_query.
Qed.

(** C6: [product.deleted] soft-deletes.  On a store keyed by external id
    that holds a product with the id, after the event is processed
    [getProduct] still returns the product, with [active] false and every
    other field as it was; [listProducts] holds that record and as many
    records as before, and in any store it lists every stored product,
    whatever its [active] flag. *)
Theorem product_deleted_keeps_the_record ctx i (d : Doc) :
  unique_key ctx "products" "stripeProductId" →
  d ∈ query ctx "products" → d !! "stripeProductId" = Some (VStr i) →
  outcome (product_deleted i) ctx = Ok VNull ∧
  (∃ r l,
     getProduct (state_after (product_deleted i) ctx) i = Ok (Some r) ∧
     r !! "active" = Some (VBool false) ∧
     (∀ k, k ≠ "active" → r !! k = strip d !! k) ∧
     listProducts (state_after (product_deleted i) ctx) = Ok l ∧
     r ∈ l ∧ length l = length (query ctx "products")) ∧
  (∀ ctx0 (p : Doc), p ∈ query ctx0 "products" →
     ∃ l, listProducts ctx0 = Ok l ∧ strip p ∈ l).
Proof.
  intros Hu Hd Hi.
  pose proof (unique_key_singleton _ _ _ _ d Hu Hd Hi) as Hone.
  destruct (keyed_by_singleton_row _ _ _ _ _ Hone) as (j & r & Hr & -> & _).
  set (r' := patch_row [("active", Some (VBool false))] r).
  assert (fields r' !! "stripeProductId" = fields r !! "stripeProductId")
    as Hid by (unfold r'; by rewrite lookup_patch_row).
  split_and!.
  - unfold outcome. by rewrite (product_deleted_one _ _ _ _ Hr Hone).
  - unfold state_after. rewrite (product_deleted_one _ _ _ _ Hr Hone).
    fold r'.
    exists (strip (document "products" j r')). eexists.
    split_and!.
    + unfold getProduct. rewrite withIndex_keyed_by.
      rewrite (keyed_by_patched_singleton _ _ _ _ _ r); done.
    + rewrite strip_other, document_other by done.
      unfold r'. by rewrite lookup_patch_row.
    + intros k Hk.
      destruct (decide (k = "_id")) as [->|H1];
        [by rewrite !strip_id|].
      destruct (decide (k = "_creationTime")) as [->|H2];
        [by rewrite !strip_creationTime|].
      rewrite !strip_other, !document_other by done.
      unfold r'. rewrite lookup_patch_row. simpl. by case_decide.
    + reflexivity.
    + unfold collect. apply list_elem_of_fmap. eexists. split; [done|].
      rewrite query_set_rows_insert.
      apply list_elem_of_lookup. exists j.
      apply list_lookup_insert_eq. rewrite length_query.
      by eapply lookup_lt_Some.
    + unfold collect.
      by rewrite length_fmap, query_set_rows_insert, length_insert.
  - intros ctx0 p Hp.
    destruct (listProducts_all ctx0 p Hp) as (l & Hl & Hin & _). eauto.
Qed.

Lemma product_deleted_keeps_the_record_witness :
  unique_key Sample.store "products" "stripeProductId" ∧
  ∃ r l,
    getProduct (state_after (product_deleted "prod_1") Sample.store) "prod_1"
    = Ok (Some r) ∧
    r !! "active" = Some (VBool false) ∧
    listProducts (state_after (product_deleted "prod_1") Sample.store) = Ok l ∧
    r ∈ l.
Proof.
  assert (unique_key Sample.store "products" "stripeProductId") as Hkey.
  { intros i. unfold keyed_by. etransitivity; [apply length_filter|].
    by rewrite length_query. }
  split; [exact Hkey|].
  destruct (product_deleted_keeps_the_record Sample.store "prod_1"
              (document "products" 0 Sample.product_row) Hkey)
    as (_ & (r & l & Hget & Hact & _ & Hlist & Hin & _) & _).
  - apply elem_of_query. by exists 0, Sample.product_row.
  - reflexivity.
  - exists r, l. split_and!; assumption.
Defined.

(** ** Actions *)

Section ActionProperties.

Context {Stripe : Type}.
Variable retrieve : string → string → Stripe → result Subscription * Stripe.
Variable update : string → string → Z → Stripe → result unit * Stripe.
Variable create : string → CheckoutArgs.t → Stripe → result Value * Stripe.
Variable internal : string → Z → Mutation Value.

Lemma effects_none {A} (a : Action A) (w : @World Stripe) :
  trace (a w).2 = trace w → effects a w = [].
Proof. intros Ht. unfold effects. rewrite Ht. apply drop_all. Qed.

Lemma effects_app {A} (a : Action A) (w : @World Stripe) l :
  trace (a w).2 = trace w ++ l → effects a w = l.
Proof. intros Ht. unfold effects. rewrite Ht. apply drop_app_length. Qed.

Ltac unfold_action :=
  unfold updateSubscriptionQuantity, createCheckoutSession, mbind,
    action_bind, mret, action_ret, process_env, throw_error,
    stripe_subscriptions_retrieve, stripe_subscriptionItems_update,
    stripe_checkout_sessions_create, ctx_runMutation.

Lemma updateSubscriptionQuantity_missing_key id q (w : World) :
  truthy (VStr <$> env w !! "STRIPE_SECRET_KEY") = false →
  updateSubscriptionQuantity retrieve update internal id q w
  = (Throw "STRIPE_SECRET_KEY must be provided as an environment variable", w).
Proof. intros Hk. unfold_action. by rewrite Hk. Qed.

Lemma updateSubscriptionQuantity_retrieve_fails id q (w : World) key e s :
  env w !! "STRIPE_SECRET_KEY" = Some key →
  key ≠ "" →
  retrieve key id (remote w) = (Throw e, s) →
  updateSubscriptionQuantity retrieve update internal id q w
  = (Throw e,
     {| env := env w; remote := s; local := local w;
        trace := trace w ++ [SubscriptionsRetrieve id false] |}).
Proof.
  intros Hk Ht Hr. unfold_action. rewrite Hk.
  destruct key; [done|]. simpl. by rewrite Hr.
Qed.

Lemma updateSubscriptionQuantity_no_items id q (w : World) key sub s :
  env w !! "STRIPE_SECRET_KEY" = Some key →
  key ≠ "" →
  retrieve key id (remote w) = (Ok sub, s) →
  items_data sub = [] →
  updateSubscriptionQuantity retrieve update internal id q w
  = (Throw "Subscription has no items",
     {| env := env w; remote := s; local := local w;
        trace := trace w ++ [SubscriptionsRetrieve id true] |}).
Proof.
  intros Hk Ht Hr Hi. unfold_action. rewrite Hk.
  destruct key; [done|]. simpl. rewrite Hr. simpl. by rewrite Hi.
Qed.

Lemma updateSubscriptionQuantity_update_fails id q (w : World)
    key sub s item rest e s' :
  env w !! "STRIPE_SECRET_KEY" = Some key →
  key ≠ "" →
  retrieve key id (remote w) = (Ok sub, s) →
  items_data sub = item :: rest →
  update key (item_id item) q s = (Throw e, s') →
  updateSubscriptionQuantity retrieve update internal id q w
  = (Throw e,
     {| env := env w; remote := s'; local := local w;
        trace := (trace w ++ [SubscriptionsRetrieve id true])
                 ++ [SubscriptionItemsUpdate (item_id item) q false] |}).
Proof.
  intros Hk Ht Hr Hi Hu. unfold_action. rewrite Hk.
  destruct key; [done|]. simpl. rewrite Hr. simpl. rewrite Hi. simpl.
  by rewrite Hu.
Qed.

Lemma updateSubscriptionQuantity_remote_done id q (w : World)
    key sub s item rest u s' :
  env w !! "STRIPE_SECRET_KEY" = Some key →
  key ≠ "" →
  retrieve key id (remote w) = (Ok sub, s) →
  items_data sub = item :: rest →
  update key (item_id item) q s = (Ok u, s') →
  updateSubscriptionQuantity retrieve update internal id q w
  = (match outcome (internal id q) (local w) with
     | Ok _ => Ok VNull
     | Throw e => Throw e
     end,
     {| env := env w; remote := s';
        local := state_after (internal id q) (local w);
        trace := ((trace w ++ [SubscriptionsRetrieve id true])
                  ++ [SubscriptionItemsUpdate (item_id item) q true])
                 ++ [RunMutation id q
                       (is_ok (outcome (internal id q) (local w)))] |}).
Proof.
  intros Hk Ht Hr Hi Hu. unfold_action. rewrite Hk.
  destruct key; [done|]. simpl. rewrite Hr. simpl. rewrite Hi. simpl.
  rewrite Hu. simpl. by destruct (outcome (internal id q) (local w)).
Qed.


(** The local mutation is never run ahead of the provider: among the calls
    the action makes it appears only as the third, after a retrieve and an
    item update that both succeeded, and the local store differs from what
    it was only in that case; when a step ahead of the local write fails,
    the action throws, the local mutation is not run and the local store is
    as it was. *)
Lemma updateSubscriptionQuantity_write_only_after_provider id q (w : World) :
  (∀ e, e ∈ effects (updateSubscriptionQuantity retrieve update internal id q) w →
     is_local_write e = true →
     ∃ item ok,
       effects (updateSubscriptionQuantity retrieve update internal id q) w
       = [ SubscriptionsRetrieve id true;
           SubscriptionItemsUpdate item q true;
           RunMutation id q ok ]) ∧
  (local (updateSubscriptionQuantity retrieve update internal id q w).2
   ≠ local w →
     ∃ item,
       effects (updateSubscriptionQuantity retrieve update internal id q) w
       = [ SubscriptionsRetrieve id true;
           SubscriptionItemsUpdate item q true;
           RunMutation id q true ]) ∧
  (fails_before_write retrieve update id q w →
     thrown (updateSubscriptionQuantity retrieve update internal id q w).1 ∧
     local (updateSubscriptionQuantity retrieve update internal id q w).2
     = local w ∧
     ∀ e, e ∈ effects (updateSubscriptionQuantity retrieve update internal id q) w →
          is_local_write e = false).
Proof.
  set (run := updateSubscriptionQuantity retrieve update internal id q).
  assert (truthy (VStr <$> env w !! "STRIPE_SECRET_KEY") = false
          ∨ ∃ key, env w !! "STRIPE_SECRET_KEY" = Some key ∧ key ≠ "")
    as [Hmissing|(key & Hk & Hne)].
  { destruct (env w !! "STRIPE_SECRET_KEY") as [[|c key]|]; eauto. }
  { (* no key: nothing is called *)
    pose proof (updateSubscriptionQuantity_missing_key id q w Hmissing) as Hrun.
    fold run in Hrun.
    assert (effects run w = []) as He by (apply effects_none; by rewrite Hrun).
    rewrite He, Hrun. simpl. split_and!.
    - by intros e ?%elem_of_nil.
    - done.
    - intros _. split_and!; [by eexists|done|by intros e ?%elem_of_nil]. }
  assert (∀ key', env w !! "STRIPE_SECRET_KEY" = Some key' → key' = key)
    as Hsame by (intros key' Hk'; congruence).
  assert (truthy (VStr <$> env w !! "STRIPE_SECRET_KEY") = true) as Htruthy.
  { rewrite Hk. by destruct key. }
  destruct (retrieve key id (remote w)) as [[sub|e] s] eqn:Hr.
  2: { (* the retrieve fails *)
    pose proof (updateSubscriptionQuantity_retrieve_fails
                  id q w key e s Hk Hne Hr) as Hrun.
    fold run in Hrun.
    assert (effects run w = [SubscriptionsRetrieve id false]) as He
      by (apply effects_app; by rewrite Hrun).
    rewrite He, Hrun. simpl. split_and!.
    - intros e0 ->%list_elem_of_singleton. done.
    - done.
    - intros _. split_and!; [by eexists|done|].
      by intros e0 ->%list_elem_of_singleton. }
  destruct (items_data sub) as [|item rest] eqn:Hi.
  { (* no items *)
    pose proof (updateSubscriptionQuantity_no_items
                  id q w key sub s Hk Hne Hr Hi) as Hrun.
    fold run in Hrun.
    assert (effects run w = [SubscriptionsRetrieve id true]) as He
      by (apply effects_app; by rewrite Hrun).
    rewrite He, Hrun. simpl. split_and!.
    - intros e0 ->%list_elem_of_singleton. done.
    - done.
    - intros _. split_and!; [by eexists|done|].
      by intros e0 ->%list_elem_of_singleton. }
  destruct (update key (item_id item) q s) as [[u|e] s'] eqn:Hu.
  2: { (* the item update fails *)
    pose proof (updateSubscriptionQuantity_update_fails
                  id q w key sub s item rest e s' Hk Hne Hr Hi Hu) as Hrun.
    fold run in Hrun.
    assert (effects run w
            = [SubscriptionsRetrieve id true;
               SubscriptionItemsUpdate (item_id item) q false]) as He
      by (apply effects_app; by rewrite Hrun, <- app_assoc).
    rewrite He, Hrun. simpl. split_and!.
    - intros e0 [->| ->%list_elem_of_singleton]%elem_of_cons; done.
    - done.
    - intros _. split_and!; [by eexists|done|].
      intros e0 [->| ->%list_elem_of_singleton]%elem_of_cons; done. }
  (* the provider is updated: the local mutation runs *)
  pose proof (updateSubscriptionQuantity_remote_done
                id q w key sub s item rest u s' Hk Hne Hr Hi Hu) as Hrun.
  fold run in Hrun.
  assert (effects run w
          = [SubscriptionsRetrieve id true;
             SubscriptionItemsUpdate (item_id item) q true;
             RunMutation id q (is_ok (outcome (internal id q) (local w)))])
    as He by (apply effects_app; by rewrite Hrun, <- !app_assoc).
  rewrite He, Hrun. simpl. split_and!.
  - intros e0 _ _. by eexists _, _.
  - intros Hchanged. exists (item_id item).
    unfold state_after, outcome in *.
    by destruct (internal id q (local w)) as [[v db]|msg].
  - intros Hfail. exfalso.
    destruct Hfail as [Hm|key' e' s0 Hk' Hr'|key' sub' s0 Hk' Hr' Hi'
                       |key' sub' s0 item' rest' e' s0' Hk' Hr' Hi' Hu'].
    + congruence.
    + rewrite (Hsame _ Hk') in Hr'. congruence.
    + rewrite (Hsame _ Hk') in Hr'. congruence.
    + rewrite (Hsame _ Hk') in Hr', Hu'.
      assert (sub' = sub ∧ s0 = s) as [-> ->] by (split; congruence).
      rewrite Hi in Hi'. injection Hi' as <- <-. congruence.
Qed.

(** With a key, the first call of the action is the provider's retrieve,
    whatever happens next. *)
Lemma updateSubscriptionQuantity_retrieve_first id q (w : World) key :
  env w !! "STRIPE_SECRET_KEY" = Some key → key ≠ "" →
  ∃ rest,
    effects (updateSubscriptionQuantity retrieve update internal id q) w
    = SubscriptionsRetrieve id (is_ok (retrieve key id (remote w)).1) :: rest
    ∧ ∀ e, e ∈ rest → e ≠ SubscriptionsRetrieve id true
                      ∧ e ≠ SubscriptionsRetrieve id false.
Proof.
  intros Hk Hne.
  destruct (retrieve key id (remote w)) as [[sub|e] s] eqn:Hr.
  2: { exists []. split; [|by intros e0 ?%elem_of_nil].
       apply effects_app.
       by rewrite (updateSubscriptionQuantity_retrieve_fails
                     id q w key e s Hk Hne Hr). }
  destruct (items_data sub) as [|item rest] eqn:Hi.
  { exists []. split; [|by intros e0 ?%elem_of_nil].
    apply effects_app.
    by rewrite (updateSubscriptionQuantity_no_items
                  id q w key sub s Hk Hne Hr Hi). }
  destruct (update key (item_id item) q s) as [[u|e] s'] eqn:Hu.
  - eexists. split.
    + apply effects_app.
      rewrite (updateSubscriptionQuantity_remote_done
                 id q w key sub s item rest u s' Hk Hne Hr Hi Hu).
      simpl. by rewrite <- !app_assoc.
    + intros e0 [->| ->%list_elem_of_singleton]%elem_of_cons; done.
  - eexists. split.
    + apply effects_app.
      rewrite (updateSubscriptionQuantity_update_fails
                 id q w key sub s item rest e s' Hk Hne Hr Hi Hu).
      simpl. by rewrite <- !app_assoc.
    + intros e0 ->%list_elem_of_singleton. done.
Qed.

(** C1: [updateSubscriptionQuantity] instructs the provider first and
    writes locally only after the provider accepted.  With a key, the first
    call the action makes is the provider's retrieve.  When the retrieve
    gives a subscription with an item and the provider accepts the update of
    that item, the action has made exactly three calls, in this order: the
    retrieve, the item update, the local mutation; the provider is in the
    state the update left, and the local store is what the local mutation
    made of it.  The local mutation appears among the calls only in that
    third place, and the local store differs from what it was only then.
    If a step ahead of the local write fails (no key, the retrieve fails,
    the subscription has no items, the item update fails), the action
    throws, the local mutation is not run and the local store is as it
    was. *)
Theorem updateSubscriptionQuantity_remote_first id q (w : World) :
  (∀ key, env w !! "STRIPE_SECRET_KEY" = Some key → key ≠ "" →
     ∃ rest,
       effects (updateSubscriptionQuantity retrieve update internal id q) w
       = SubscriptionsRetrieve id (is_ok (retrieve key id (remote w)).1)
         :: rest) ∧
  (∀ key sub s item rest u s',
     env w !! "STRIPE_SECRET_KEY" = Some key → key ≠ "" →
     retrieve key id (remote w) = (Ok sub, s) →
     items_data sub = item :: rest →
     update key (item_id item) q s = (Ok u, s') →
     effects (updateSubscriptionQuantity retrieve update internal id q) w
     = [ SubscriptionsRetrieve id true;
         SubscriptionItemsUpdate (item_id item) q true;
         RunMutation id q (is_ok (outcome (internal id q) (local w))) ] ∧
     remote (updateSubscriptionQuantity retrieve update internal id q w).2
     = s' ∧
     local (updateSubscriptionQuantity retrieve update internal id q w).2
     = state_after (internal id q) (local w) ∧
     (updateSubscriptionQuantity retrieve update internal id q w).1
     = match outcome (internal id q) (local w) with
       | Ok _ => Ok VNull
       | Throw e => Throw e
       end) ∧
  (∀ e, e ∈ effects (updateSubscriptionQuantity retrieve update internal id q) w →
     is_local_write e = true →
     ∃ item ok,
       effects (updateSubscriptionQuantity retrieve update internal id q) w
       = [ SubscriptionsRetrieve id true;
           SubscriptionItemsUpdate item q true;
           RunMutation id q ok ]) ∧
  (local (updateSubscriptionQuantity retrieve update internal id q w).2
   ≠ local w →
     ∃ item,
       effects (updateSubscriptionQuantity retrieve update internal id q) w
       = [ SubscriptionsRetrieve id true;
           SubscriptionItemsUpdate item q true;
           RunMutation id q true ]) ∧
  (fails_before_write retrieve update id q w →
     thrown (updateSubscriptionQuantity retrieve update internal id q w).1 ∧
     local (updateSubscriptionQuantity retrieve update internal id q w).2
     = local w ∧
     ∀ e, e ∈ effects (updateSubscriptionQuantity retrieve update internal id q) w →
          is_local_write e = false).
Proof.
  destruct (updateSubscriptionQuantity_write_only_after_provider id q w)
    as (Honly & Hchanged & Hfails).
  split_and!; [| |exact Honly|exact Hchanged|exact Hfails].
  - intros key Hk Hne.
    destruct (updateSubscriptionQuantity_retrieve_first id q w key Hk Hne)
      as (rest & He & _).
    by exists rest.
  - intros key sub s item rest u s' Hk Hne Hr Hi Hu.
    pose proof (updateSubscriptionQuantity_remote_done
                  id q w key sub s item rest u s' Hk Hne Hr Hi Hu) as Hrun.
    split_and!.
    + apply effects_app. by rewrite Hrun, <- !app_assoc.
    + by rewrite Hrun.
    + by rewrite Hrun.
    + by rewrite Hrun.
Qed.

(** C5: a checkout session requested with both [allowPromotionCodes] and a
    list of [discounts] fails before anything is called: the request throws
    "Cannot use both allowPromotionCodes and discounts", and the provider,
    the local store and the calls made are as they were. *)
Theorem createCheckoutSession_exclusive_options apiKey args (w : World) ds :
  CheckoutArgs.allowPromotionCodes args = Some true →
  CheckoutArgs.discounts args = Some ds →
  createCheckoutSession create apiKey args w
  = (Throw "Cannot use both allowPromotionCodes and discounts", w) ∧
  effects (createCheckoutSession create apiKey args) w = [] ∧
  remote (createCheckoutSession create apiKey args w).2 = remote w ∧
  local (createCheckoutSession create apiKey args w).2 = local w.
Proof.
  intros Hallow Hdiscounts.
  assert (createCheckoutSession create apiKey args w
          = (Throw "Cannot use both allowPromotionCodes and discounts", w))
    as Hrun.
  { unfold createCheckoutSession, throw_error.
    by rewrite Hallow, Hdiscounts. }
  split; [done|]. split; [|by rewrite Hrun].
  apply effects_none. by rewrite Hrun.
Qed.

End ActionProperties.

Lemma updateSubscriptionQuantity_remote_first_witness :
  (fails_before_write Sample.retrieve (Sample.update false) "sub_1" 5
     Sample.world ∧
   thrown (updateSubscriptionQuantity Sample.retrieve (Sample.update false)
             Sample.internal "sub_1" 5 Sample.world).1 ∧
   local (updateSubscriptionQuantity Sample.retrieve (Sample.update false)
            Sample.internal "sub_1" 5 Sample.world).2
   = local Sample.world) ∧
  effects (updateSubscriptionQuantity Sample.retrieve (Sample.update true)
             Sample.internal "sub_1" 5) Sample.world
  = [ SubscriptionsRetrieve "sub_1" true;
      SubscriptionItemsUpdate "si_1" 5 true;
      RunMutation "sub_1" 5 true ].
Proof.
  split.
  - assert (fails_before_write Sample.retrieve (Sample.update false)
              "sub_1" 5 Sample.world) as Hfail.
    { eapply (update_fails _ _ _ _ _ "sk_test_123"); reflexivity. }
    split; [exact Hfail|].
    destruct (updateSubscriptionQuantity_remote_first
                Sample.retrieve (Sample.update false) Sample.internal
                "sub_1" 5 Sample.world) as (_ & _ & _ & _ & Hthrows).
    destruct (Hthrows Hfail) as (Ht & Hl & _). split; [exact Ht | exact Hl].
  - destruct (updateSubscriptionQuantity_remote_first
                Sample.retrieve (Sample.update true) Sample.internal
                "sub_1" 5 Sample.world) as (_ & Hsuccess & _).
    assert ("sk_test_123" ≠ "") as Hne by done.
    exact (proj1 (Hsuccess "sk_test_123"
                    {| items_data := [ {| item_id := "si_1" |} ] |} tt
                    {| item_id := "si_1" |} [] tt tt
                    eq_refl Hne eq_refl eq_refl eq_refl)).
Defined.

Lemma createCheckoutSession_exclusive_options_witness :
  createCheckoutSession Sample.sessions_create "sk_test_123"
    Sample.checkout_args Sample.world
  = (Throw "Cannot use both allowPromotionCodes and discounts", Sample.world).
Proof.
  apply (createCheckoutSession_exclusive_options Sample.sessions_create
           "sk_test_123" Sample.checkout_args Sample.world
           [ VObj [("coupon", VStr "coupon_123")] ]); reflexivity.
Defined.

(** * Further properties of the query surface *)

Lemma run_query_lookup ctx c t f i :
  lookup_of c = Some (t, f, i) →
  run_query ctx c = ARecord <$> (data_or_null <$> unique (keyed_by ctx t f i)).
Proof.
  intros Hc.
  destruct c; simplify_eq/=;
    unfold getProduct, getPrice, getPriceByLookupKey, getCustomer,
      getSubscription, getPayment;
    rewrite withIndex_keyed_by; unfold_result; by destruct (unique _).
Qed.

(** A point lookup returns null exactly when no record has the key, the
    record without its system fields when exactly one has it, and throws
    exactly when two or more have it. *)
Theorem point_lookup_null_one_or_throws ctx c t f i :
  lookup_of c = Some (t, f, i) →
  (run_query ctx c = Ok (ARecord None)
   ↔ ¬ ∃ d : Doc, d ∈ query ctx t ∧ d !! f = Some (VStr i)) ∧
  (∀ d : Doc, keyed_by ctx t f i = [d] →
     run_query ctx c = Ok (ARecord (Some (strip d)))) ∧
  (thrown (run_query ctx c) ↔ 2 ≤ length (keyed_by ctx t f i)).
Proof.
  intros Hc. rewrite (run_query_lookup _ _ _ _ _ Hc), <- keyed_by_nil.
  unfold_result. unfold thrown.
  destruct (keyed_by ctx t f i) as [|d [|d' l]]; simpl; split_and!.
  all: try (split; intros; simplify_eq/=; done || lia).
  all: try (intros; by simplify_eq/=).
  - split; [intros [? ?]; done | lia].
  - split; [intros [? ?]; done | lia].
  - split; [lia | by eexists].
Qed.

Lemma point_lookup_null_one_or_throws_witness :
  (run_query Sample.store (GetCustomer "cus_404") = Ok (ARecord None)
   ↔ ¬ ∃ d : Doc, d ∈ query Sample.store "customers"
                  ∧ d !! "stripeCustomerId" = Some (VStr "cus_404")) ∧
  run_query Sample.store (GetCustomer "cus_404") = Ok (ARecord None).
Proof.
  destruct (point_lookup_null_one_or_throws Sample.store
              (GetCustomer "cus_404") "customers" "stripeCustomerId"
              "cus_404" eq_refl) as (Hnull & _ & _).
  split; [exact Hnull|]. reflexivity.
Defined.

(** [getSubscriptionByOrgId] never throws: it returns null exactly when no
    subscription has the [orgId], and otherwise the earliest created
    subscription that has it, even when several do. *)
Theorem getSubscriptionByOrgId_first_created ctx o :
  ∃ answer, getSubscriptionByOrgId ctx o = Ok answer ∧
    (answer = None
     ↔ ¬ ∃ d : Doc, d ∈ query ctx "subscriptions"
                    ∧ d !! "orgId" = Some (VStr o)) ∧
    (∀ r, answer = Some r →
       ∃ j row, rows ctx "subscriptions" !! j = Some row ∧
         r = strip (document "subscriptions" j row) ∧
         fields row !! "orgId" = Some (VStr o) ∧
         ∀ j' row', j' < j → rows ctx "subscriptions" !! j' = Some row' →
                    fields row' !! "orgId" ≠ Some (VStr o)).
Proof.
  eexists. split; [reflexivity|].
  unfold first. rewrite withIndex_keyed_by. split.
  - rewrite <- keyed_by_nil.
    by destruct (keyed_by ctx "subscriptions" "orgId" o).
  - intros r Hr.
    destruct (keyed_by ctx "subscriptions" "orgId" o) as [|d rest] eqn:Hk;
      simplify_eq/=.
    assert (d ∈ keyed_by ctx "subscriptions" "orgId" o) as Hin
      by (rewrite Hk; apply list_elem_of_here).
    apply elem_of_keyed_by in Hin as [_ Ho].
    assert (head (filter (λ d, q_eq "orgId" (KString o) d)
                    (query ctx "subscriptions")) = Some d) as Hh
      by (fold (keyed_by ctx "subscriptions" "orgId" o); by rewrite Hk).
    apply head_filter_Some in Hh as (l1 & l2 & Hq & Hbefore).
    assert (query ctx "subscriptions" !! length l1 = Some d) as Hd
      by (rewrite Hq; by apply list_lookup_middle).
    rewrite lookup_query in Hd.
    destruct (rows ctx "subscriptions" !! length l1) as [row|] eqn:Hrow;
      simplify_eq/=.
    exists (length l1), row. split_and!; [done..| |].
    + by rewrite document_other in Ho.
    + intros j' row' Hlt Hrow' Ho'.
      assert (query ctx "subscriptions" !! j'
              = Some (document "subscriptions" j' row')) as Hd'
        by by rewrite lookup_query, Hrow'.
      rewrite Hq, lookup_app_l in Hd' by done.
      rewrite Forall_forall in Hbefore.
      apply (Hbefore (document "subscriptions" j' row')).
      * by eapply list_elem_of_lookup_2.
      * apply Is_true_true, q_eq_string. by rewrite document_other.
Qed.

Lemma filter_local {A} (P Q : A → Prop)
    `{!∀ x, Decision (P x)} `{!∀ x, Decision (Q x)} (l : list A) :
  (∀ x, x ∈ l → P x ↔ Q x) → filter P l = filter Q l.
Proof.
  intros Hl. rewrite <- (list_fmap_id (filter P l)).
  rewrite (fmap_filter_local id P Q l Hl). by rewrite list_fmap_id.
Qed.

Lemma run_query_listing ctx c t f i :
  listing_of c = Some (t, f, i) →
  run_query ctx c = Ok (AList (strip <$> keyed_by ctx t f i))
  ∧ f ≠ "_id" ∧ f ≠ "_creationTime".
Proof. intros Hc. by destruct c; simplify_eq/=. Qed.

(** A listing through an index never throws.  Every record it returns
    carries the key it was asked for, every stored record with that key is
    returned, and the records come in creation order: a record whose field
    is absent or different is in no such listing. *)
Theorem listing_by_key_sound_and_complete ctx c t f i :
  listing_of c = Some (t, f, i) →
  ∃ l, run_query ctx c = Ok (AList l) ∧
    (∀ r, r ∈ l → r !! f = Some (VStr i)) ∧
    (∀ d : Doc, d ∈ query ctx t → d !! f = Some (VStr i) → strip d ∈ l) ∧
    (∃ docs, docs `sublist_of` query ctx t ∧ l = strip <$> docs).
Proof.
  intros Hc. destruct (run_query_listing ctx c t f i Hc) as (Hrun & H1 & H2).
  eexists. split; [exact Hrun|]. split_and!.
  - intros r (d & -> & Hd)%list_elem_of_fmap.
    apply elem_of_keyed_by in Hd as [_ Hf]. by rewrite strip_other.
  - intros d Hd Hf. apply list_elem_of_fmap. exists d. split; [done|].
    by apply elem_of_keyed_by.
  - exists (keyed_by ctx t f i). split; [|done]. apply sublist_filter.
Qed.

Lemma listing_by_key_sound_and_complete_witness :
  ∃ l, run_query Sample.store (ListSubscriptionsByUserId "user_1")
       = Ok (AList l) ∧
    (∀ r, r ∈ l → r !! "userId" = Some (VStr "user_1")) ∧
    strip (document "subscriptions" 0 Sample.subscription_row) ∈ l.
Proof.
  destruct (listing_by_key_sound_and_complete Sample.store
              (ListSubscriptionsByUserId "user_1")
              "subscriptions" "userId" "user_1" eq_refl)
    as (l & Hrun & Hsound & Hcomplete & _).
  exists l. split_and!; [exact Hrun|exact Hsound|].
  apply Hcomplete; [|reflexivity].
  apply elem_of_query. by exists 0, Sample.subscription_row.
Defined.

Lemma sample_prices_conform : table_conforms Sample.store "prices".
Proof.
  intros def r Hdef Hr. vm_compute in Hdef. injection Hdef as <-.
  change (rows Sample.store "prices")
    with [Sample.price_row "price_1" true 11;
          Sample.price_row "price_2" false 12] in Hr.
  apply elem_of_cons in Hr as [->|Hr]; [by vm_compute|].
  apply list_elem_of_singleton in Hr as ->. by vm_compute.
Qed.

Lemma sample_unique_key t f :
  length (rows Sample.store t) ≤ 1 → unique_key Sample.store t f.
Proof.
  intros Hlen i. unfold keyed_by. etransitivity; [apply length_filter|].
  by rewrite length_query.
Qed.

(** [listActivePrices] returns the records of [listPrices] whose [active]
    is true, in the same order; and on prices that conform to the schema,
    [listActivePricesByProduct] returns the records of [listActivePrices]
    that belong to the product. *)
Theorem listActivePrices_between_listings ctx i :
  table_conforms ctx "prices" →
  ∃ all act,
    listPrices ctx = Ok all ∧ listActivePrices ctx = Ok act ∧
    act = filter (λ r, active_flag_true r) all ∧
    listActivePricesByProduct ctx i
    = Ok (filter (λ r, q_eq "stripeProductId" (KString i) r) act).
Proof.
  intros Hc. eexists _, _. split; [reflexivity|]. split; [reflexivity|].
  unfold collect, withIndex. split.
  - apply fmap_filter_local. intros d _. by rewrite active_flag_true_strip.
  - unfold listActivePricesByProduct, collect, withIndex. simpl. f_equal.
    transitivity
      (strip <$> filter (λ d, q_eq "stripeProductId" (KString i) d)
                   (filter (λ d, q_eq "active" (KBoolean true) d)
                      (query ctx "prices")));
      [|apply fmap_filter_local].
    + f_equal. rewrite !list_filter_filter. apply filter_local.
      intros d Hd. destruct (price_active_boolean ctx d Hc Hd) as [b Hb].
      unfold q_eq at 2. rewrite Hb. simpl. destruct b; simpl; tauto.
    + intros d _. unfold q_eq. by rewrite strip_other.
Qed.

Lemma listActivePrices_between_listings_witness :
  table_conforms Sample.store "prices" ∧
  ∃ act, listActivePrices Sample.store = Ok act ∧
    listActivePricesByProduct Sample.store "prod_1"
    = Ok (filter (λ r, q_eq "stripeProductId" (KString "prod_1") r) act).
Proof.
  pose proof sample_prices_conform as Hc.
  split; [exact Hc|].
  destruct (listActivePrices_between_listings Sample.store "prod_1" Hc)
    as (all & act & _ & Hact & _ & Hby).
  by exists act.
Defined.

(** The compound read is the point lookup followed by the listing: it
    throws exactly when [getProduct] does, is null when [getProduct] is,
    whatever prices point to the id, and otherwise pairs the record of
    [getProduct] with the records of [listPricesByProduct]. *)
Theorem getProductWithPrices_composes ctx i :
  (thrown (getProductWithPrices ctx i) ↔ thrown (getProduct ctx i)) ∧
  (getProduct ctx i = Ok None → getProductWithPrices ctx i = Ok None) ∧
  (∀ p, getProduct ctx i = Ok (Some p) →
     ∃ ps, listPricesByProduct ctx i = Ok ps ∧
       getProductWithPrices ctx i
       = Ok (Some {| product := p; prices := ps |})).
Proof.
  unfold getProductWithPrices, getProduct, thrown. unfold_result.
  destruct (unique _) as [[d|]|msg]; simpl; split_and!.
  all: try (split; intros [? ?]; done).
  all: try done.
  - intros p [= <-]. by eexists.
  - split; intros _; by eexists.
Qed.

(** * Further properties of the mutations *)

Lemma keyed_by_has ctx t f i (d : Doc) :
  unique_key ctx t f → d ∈ query ctx t → d !! f = Some (VStr i) →
  unique (keyed_by ctx t f i) = Ok (Some d).
Proof.
  intros Hu Hd Hf. by rewrite (unique_key_singleton _ _ _ _ d Hu Hd Hf).
Qed.

(** After [createOrUpdateCustomer], on a store keyed by external id,
    [getCustomer] for the same id returns a record whose id is the given
    one and whose [email], [name] and [metadata] are the arguments of the
    call, absent when omitted. *)
Theorem createOrUpdateCustomer_then_getCustomer args ctx :
  unique_key ctx "customers" "stripeCustomerId" →
  ∃ r,
    getCustomer (state_after (createOrUpdateCustomer args) ctx)
      (CustomerArgs.stripeCustomerId args) = Ok (Some r) ∧
    r !! "stripeCustomerId" = Some (VStr (CustomerArgs.stripeCustomerId args)) ∧
    r !! "email" = VStr <$> CustomerArgs.email args ∧
    r !! "name" = VStr <$> CustomerArgs.name args ∧
    r !! "metadata" = CustomerArgs.metadata args.
Proof.
  intros Hu.
  pose proof (createOrUpdateCustomer_keeps_unique_key args ctx Hu) as Hu'.
  assert (∃ j row,
            rows (state_after (createOrUpdateCustomer args) ctx) "customers"
              !! j = Some row ∧
            fields row !! "stripeCustomerId"
            = Some (VStr (CustomerArgs.stripeCustomerId args)) ∧
            fields row !! "email" = VStr <$> CustomerArgs.email args ∧
            fields row !! "name" = VStr <$> CustomerArgs.name args ∧
            fields row !! "metadata" = CustomerArgs.metadata args)
    as (j & row & Hrow & Hid & Hemail & Hname & Hmeta).
  { destruct (keyed_by ctx "customers" "stripeCustomerId"
                (CustomerArgs.stripeCustomerId args))
      as [|d [|d' l]] eqn:Hk.
    - unfold state_after. rewrite (createOrUpdateCustomer_none _ _ Hk).
      exists (length (rows ctx "customers")),
        (new_row (ticks ctx) (customer_object args)).
      split_and!.
      + rewrite rows_add_row. case_decide; [|done].
        by rewrite lookup_app_r, Nat.sub_diag.
      + apply new_customer_id.
      + simpl. by rewrite lookup_object.
      + simpl. by rewrite lookup_object.
      + simpl. rewrite lookup_object. simpl.
        by destruct (CustomerArgs.metadata args).
    - destruct (keyed_by_singleton_row _ _ _ _ _ Hk)
        as (j & r & Hr & -> & Hid).
      unfold state_after. rewrite (createOrUpdateCustomer_one _ _ _ _ Hr Hk).
      exists j, (patch_row (customer_patch args) r).
      split_and!.
      + by eapply rows_patched_same.
      + rewrite customer_patch_keeps_id. by rewrite document_other in Hid.
      + by rewrite lookup_patch_row.
      + by rewrite lookup_patch_row.
      + rewrite lookup_patch_row. simpl.
        by destruct (CustomerArgs.metadata args).
    - specialize (Hu (CustomerArgs.stripeCustomerId args)).
      rewrite Hk in Hu. simpl in Hu. lia. }
  exists (strip (document "customers" j row)).
  split; [|by rewrite !strip_other, !document_other].
  unfold getCustomer. rewrite withIndex_keyed_by.
  rewrite (keyed_by_has _ _ _ _ (document "customers" j row)); try done.
  - apply elem_of_query. eauto.
  - by rewrite document_other.
Qed.

Lemma createOrUpdateCustomer_then_getCustomer_witness :
  unique_key Sample.store "customers" "stripeCustomerId" ∧
  ∃ r,
    getCustomer
      (state_after (createOrUpdateCustomer (Sample.customer_args "cus_2"))
         Sample.store) "cus_2" = Ok (Some r) ∧
    r !! "email" = None ∧ r !! "name" = Some (VStr "Ada L.").
Proof.
  assert (unique_key Sample.store "customers" "stripeCustomerId") as Hkey
    by (apply sample_unique_key; reflexivity).
  split; [exact Hkey|].
  destruct (createOrUpdateCustomer_then_getCustomer
              (Sample.customer_args "cus_2") Sample.store Hkey)
    as (r & Hget & _ & Hemail & Hname & _).
  exists r. split_and!; [exact Hget|exact Hemail|exact Hname].
Defined.

Lemma subscription_patch_keeps_id args r :
  fields (patch_row (subscription_patch args) r) !! "stripeSubscriptionId"
  = fields r !! "stripeSubscriptionId".
Proof. by rewrite lookup_patch_row, assigned_subscription_patch. Qed.

(** After [updateSubscriptionMetadata] on the subscription it finds,
    [getSubscription] returns the record with the new [metadata], [orgId]
    and [userId] and every other field as before; the record is listed
    under the user id it was given and under no other, and a lookup by the
    org id it was given finds a subscription. *)
Theorem updateSubscriptionMetadata_then_lookups args ctx (d : Doc) :
  keyed_by ctx "subscriptions" "stripeSubscriptionId"
    (MetadataArgs.stripeSubscriptionId args) = [d] →
  ∃ r,
    getSubscription (state_after (updateSubscriptionMetadata args) ctx)
      (MetadataArgs.stripeSubscriptionId args) = Ok (Some r) ∧
    r !! "metadata" = Some (MetadataArgs.metadata args) ∧
    r !! "orgId" = VStr <$> MetadataArgs.orgId args ∧
    r !! "userId" = VStr <$> MetadataArgs.userId args ∧
    (∀ k, k ≠ "metadata" → k ≠ "orgId" → k ≠ "userId" →
          r !! k = strip d !! k) ∧
    (∀ u, MetadataArgs.userId args = Some u →
       ∃ l, listSubscriptionsByUserId
              (state_after (updateSubscriptionMetadata args) ctx) u = Ok l
            ∧ r ∈ l) ∧
    (∀ u l, listSubscriptionsByUserId
              (state_after (updateSubscriptionMetadata args) ctx) u = Ok l →
            r ∈ l → MetadataArgs.userId args = Some u) ∧
    (∀ o, MetadataArgs.orgId args = Some o →
       ∃ r', getSubscriptionByOrgId
               (state_after (updateSubscriptionMetadata args) ctx) o
             = Ok (Some r')).
Proof.
  intros Hone.
  destruct (keyed_by_singleton_row _ _ _ _ _ Hone) as (j & r & Hr & -> & _).
  unfold state_after. rewrite (updateSubscriptionMetadata_one _ _ _ _ Hr Hone).
  set (r' := patch_row (subscription_patch args) r).
  set (ctx' := set_rows "subscriptions"
                 (<[j := r']> (rows ctx "subscriptions")) ctx).
  assert (rows ctx' "subscriptions" !! j = Some r') as Hr'
    by by eapply rows_patched_same.
  assert (document "subscriptions" j r' ∈ query ctx' "subscriptions") as Hq
    by (apply elem_of_query; eauto).
  assert (fields r' !! "metadata" = Some (MetadataArgs.metadata args)) as Hm
    by (unfold r'; by rewrite lookup_patch_row).
  assert (fields r' !! "orgId" = VStr <$> MetadataArgs.orgId args) as Ho
    by (unfold r'; by rewrite lookup_patch_row).
  assert (fields r' !! "userId" = VStr <$> MetadataArgs.userId args) as Hu
    by (unfold r'; by rewrite lookup_patch_row).
  exists (strip (document "subscriptions" j r')). split_and!.
  - unfold getSubscription. rewrite withIndex_keyed_by.
    unfold ctx'.
    rewrite (keyed_by_patched_singleton _ _ _ _ _ r); try done.
    apply subscription_patch_keeps_id.
  - by rewrite strip_other, document_other.
  - by rewrite strip_other, document_other.
  - by rewrite strip_other, document_other.
  - intros k H1 H2 H3.
    destruct (decide (k = "_id")) as [->|H4]; [by rewrite !strip_id|].
    destruct (decide (k = "_creationTime")) as [->|H5];
      [by rewrite !strip_creationTime|].
    rewrite !strip_other, !document_other by done.
    unfold r'. by rewrite lookup_patch_row, assigned_subscription_patch.
  - intros u Hsome. eexists. split; [reflexivity|].
    unfold collect. rewrite withIndex_keyed_by.
    apply list_elem_of_fmap. eexists. split; [done|].
    apply elem_of_keyed_by. split; [done|].
    by rewrite document_other, Hu, Hsome.
  - intros u l [= <-] Hin. unfold collect in Hin.
    rewrite withIndex_keyed_by in Hin.
    apply list_elem_of_fmap in Hin as (d' & Heq & Hd').
    apply elem_of_keyed_by in Hd' as [_ Hd'].
    assert (strip (document "subscriptions" j r') !! "userId"
            = Some (VStr u)) as Hru
      by by rewrite Heq, strip_other.
    rewrite strip_other, document_other, Hu in Hru by done.
    destruct (MetadataArgs.userId args); by simplify_eq/=.
  - intros o Hsome.
    destruct (getSubscriptionByOrgId_first_created ctx' o)
      as (answer & Hget & Hnull & _).
    destruct answer as [r0|]; [by eexists|].
    exfalso. apply (proj1 Hnull eq_refl).
    exists (document "subscriptions" j r'). split; [done|].
    by rewrite document_other, Ho, Hsome.
Qed.

Lemma updateSubscriptionMetadata_then_lookups_witness :
  keyed_by Sample.store "subscriptions" "stripeSubscriptionId" "sub_1"
  = [document "subscriptions" 0 Sample.subscription_row] ∧
  ∃ r,
    getSubscription
      (state_after (updateSubscriptionMetadata (Sample.metadata_args "sub_1"))
         Sample.store) "sub_1" = Ok (Some r) ∧
    r !! "orgId" = Some (VStr "org_2") ∧ r !! "userId" = None.
Proof.
  assert (keyed_by Sample.store "subscriptions" "stripeSubscriptionId" "sub_1"
          = [document "subscriptions" 0 Sample.subscription_row]) as Hone
    by reflexivity.
  split; [exact Hone|].
  destruct (updateSubscriptionMetadata_then_lookups
              (Sample.metadata_args "sub_1") Sample.store _ Hone)
    as (r & Hget & _ & Horg & Huser & _).
  exists r. split_and!; [exact Hget|exact Horg|exact Huser].
Defined.

(** *** What the mutations leave alone *)

Lemma run_query_ext ctx1 ctx2 c :
  (∀ t, t ∈ tables_read c → query ctx1 t = query ctx2 t) →
  run_query ctx1 c = run_query ctx2 c.
Proof.
  intros Hq.
  destruct c; simpl in *;
    unfold getProduct, getPrice, getPriceByLookupKey, getCustomer,
      getSubscription, getPayment, listProducts, listActiveProducts,
      listPrices, listActivePrices, listPricesByProduct,
      listActivePricesByProduct, listSubscriptions,
      listSubscriptionsByUserId, listPayments, listPaymentsByUserId,
      listPaymentsByOrgId, listInvoices, listInvoicesByOrgId,
      listInvoicesByUserId, getProductWithPrices, getSubscriptionByOrgId;
    rewrite ?(Hq "products"), ?(Hq "prices"), ?(Hq "customers"),
      ?(Hq "subscriptions"), ?(Hq "payments"), ?(Hq "invoices");
    try done; set_solver.
Qed.

Lemma query_rows_ext ctx1 ctx2 t :
  rows ctx1 t = rows ctx2 t → query ctx1 t = query ctx2 t.
Proof. unfold query. by intros ->. Qed.

Lemma createOrUpdateCustomer_rows_other args ctx t :
  t ≠ "customers" →
  rows (state_after (createOrUpdateCustomer args) ctx) t = rows ctx t.
Proof.
  intros Ht. unfold state_after.
  destruct (keyed_by ctx "customers" "stripeCustomerId"
              (CustomerArgs.stripeCustomerId args)) as [|d [|d' l]] eqn:Hk.
  - rewrite (createOrUpdateCustomer_none _ _ Hk), rows_add_row.
    by case_decide.
  - destruct (keyed_by_singleton_row _ _ _ _ _ Hk) as (j & r & Hr & -> & _).
    rewrite (createOrUpdateCustomer_one _ _ _ _ Hr Hk), rows_set_rows.
    by case_decide.
  - rewrite createOrUpdateCustomer_many; [done|]. rewrite Hk. simpl. lia.
Qed.

Lemma updateSubscriptionMetadata_rows_other args ctx t :
  t ≠ "subscriptions" →
  rows (state_after (updateSubscriptionMetadata args) ctx) t = rows ctx t.
Proof.
  intros Ht. unfold state_after.
  destruct (keyed_by ctx "subscriptions" "stripeSubscriptionId"
              (MetadataArgs.stripeSubscriptionId args))
    as [|d [|d' l]] eqn:Hk.
  - by rewrite (updateSubscriptionMetadata_none _ _ Hk).
  - destruct (keyed_by_singleton_row _ _ _ _ _ Hk) as (j & r & Hr & -> & _).
    rewrite (updateSubscriptionMetadata_one _ _ _ _ Hr Hk), rows_set_rows.
    by case_decide.
  - rewrite updateSubscriptionMetadata_many; [done|]. rewrite Hk. simpl. lia.
Qed.

(** Neither mutation is seen by a query of another table: after
    [createOrUpdateCustomer] every query that does not read ["customers"]
    answers as before, and after [updateSubscriptionMetadata] every query
    that does not read ["subscriptions"] does; this holds whether the
    mutation commits or throws. *)
Theorem mutations_leave_other_tables ctx c :
  (∀ args, "customers" ∉ tables_read c →
     run_query (state_after (createOrUpdateCustomer args) ctx) c
     = run_query ctx c) ∧
  (∀ args, "subscriptions" ∉ tables_read c →
     run_query (state_after (updateSubscriptionMetadata args) ctx) c
     = run_query ctx c).
Proof.
  split; intros args Hc; apply run_query_ext; intros t Ht;
    apply query_rows_ext.
  - apply createOrUpdateCustomer_rows_other. by intros ->.
  - apply updateSubscriptionMetadata_rows_other. by intros ->.
Qed.

Lemma mutations_leave_other_tables_witness :
  run_query
    (state_after (createOrUpdateCustomer (Sample.customer_args "cus_2"))
       Sample.store) (ListSubscriptions "cus_1")
  = run_query Sample.store (ListSubscriptions "cus_1").
Proof.
  destruct (mutations_leave_other_tables Sample.store
              (ListSubscriptions "cus_1")) as [Hcustomers _].
  apply Hcustomers. simpl. by intros ?%list_elem_of_singleton.
Defined.

(** When two or more records share the external id, [.unique()] makes both
    mutations throw, and the store is left as it was. *)
Theorem mutations_throw_on_shared_id ctx :
  (∀ args,
     2 ≤ length (keyed_by ctx "customers" "stripeCustomerId"
                   (CustomerArgs.stripeCustomerId args)) →
     thrown (outcome (createOrUpdateCustomer args) ctx) ∧
     state_after (createOrUpdateCustomer args) ctx = ctx) ∧
  (∀ args,
     2 ≤ length (keyed_by ctx "subscriptions" "stripeSubscriptionId"
                   (MetadataArgs.stripeSubscriptionId args)) →
     thrown (outcome (updateSubscriptionMetadata args) ctx) ∧
     state_after (updateSubscriptionMetadata args) ctx = ctx).
Proof.
  split; intros args Hmany; unfold thrown, outcome, state_after.
  - rewrite (createOrUpdateCustomer_many _ _ Hmany). eauto.
  - rewrite (updateSubscriptionMetadata_many _ _ Hmany). eauto.
Qed.

Lemma mutations_throw_on_shared_id_witness :
  2 ≤ length (keyed_by Broken.store "customers" "stripeCustomerId" "cus_1") ∧
  thrown (outcome (createOrUpdateCustomer (Sample.customer_args "cus_1"))
            Broken.store) ∧
  state_after (createOrUpdateCustomer (Sample.customer_args "cus_1"))
    Broken.store = Broken.store.
Proof.
  assert (2 ≤ length (keyed_by Broken.store "customers" "stripeCustomerId"
                        "cus_1")) as Hmany.
  { assert (keyed_by Broken.store "customers" "stripeCustomerId" "cus_1"
            = [document "customers" 0 Sample.customer_row;
               document "customers" 1 Sample.customer_row]) as ->
      by reflexivity.
    simpl. lia. }
  split; [exact Hmany|].
  destruct (mutations_throw_on_shared_id Broken.store) as [Hcustomers _].
  exact (Hcustomers (Sample.customer_args "cus_1") Hmany).
Defined.

Lemma updateSubscriptionMetadata_length args ctx t :
  length (rows (state_after (updateSubscriptionMetadata args) ctx) t)
  = length (rows ctx t).
Proof.
  destruct (decide (t = "subscriptions")) as [->|Ht];
    [|by rewrite updateSubscriptionMetadata_rows_other].
  unfold state_after.
  destruct (keyed_by ctx "subscriptions" "stripeSubscriptionId"
              (MetadataArgs.stripeSubscriptionId args))
    as [|d [|d' l]] eqn:Hk.
  - by rewrite (updateSubscriptionMetadata_none _ _ Hk).
  - destruct (keyed_by_singleton_row _ _ _ _ _ Hk) as (j & r & Hr & -> & _).
    rewrite (updateSubscriptionMetadata_one _ _ _ _ Hr Hk), rows_set_rows.
    case_decide; [|done]. apply length_insert.
  - rewrite updateSubscriptionMetadata_many; [done|]. rewrite Hk. simpl. lia.
Qed.

(** [updateSubscriptionMetadata] is idempotent on every store: run again
    with the same arguments it gives the same result and leaves the store
    as the first run left it.  It never adds or removes a row, and a store
    keyed by subscription id stays so. *)
Theorem updateSubscriptionMetadata_idempotent args ctx :
  state_after (updateSubscriptionMetadata args)
    (state_after (updateSubscriptionMetadata args) ctx)
  = state_after (updateSubscriptionMetadata args) ctx ∧
  outcome (updateSubscriptionMetadata args)
    (state_after (updateSubscriptionMetadata args) ctx)
  = outcome (updateSubscriptionMetadata args) ctx ∧
  (∀ t, length (rows (state_after (updateSubscriptionMetadata args) ctx) t)
        = length (rows ctx t)) ∧
  (unique_key ctx "subscriptions" "stripeSubscriptionId" →
   unique_key (state_after (updateSubscriptionMetadata args) ctx)
     "subscriptions" "stripeSubscriptionId").
Proof.
  split_and!; [| |apply updateSubscriptionMetadata_length|].
  1,2: destruct (keyed_by ctx "subscriptions" "stripeSubscriptionId"
                   (MetadataArgs.stripeSubscriptionId args))
         as [|d [|d' l]] eqn:Hk.
  1,4: unfold state_after, outcome;
       by rewrite !(updateSubscriptionMetadata_none _ _ Hk).
  2,4: assert (updateSubscriptionMetadata args ctx
               = Throw "unique() query returned more than one result")
         as Hthrow
         by (apply updateSubscriptionMetadata_many; rewrite Hk; simpl; lia);
       unfold state_after, outcome; by rewrite !Hthrow.
  1,2: destruct (keyed_by_singleton_row _ _ _ _ _ Hk)
         as (j & r & Hr & -> & _);
       pose proof (updateSubscriptionMetadata_one _ _ _ _ Hr Hk) as Hrun;
       assert (updateSubscriptionMetadata args
                 (set_rows "subscriptions"
                    (<[j := patch_row (subscription_patch args) r]>
                       (rows ctx "subscriptions")) ctx)
               = Ok (VNull,
                     set_rows "subscriptions"
                       (<[j := patch_row (subscription_patch args) r]>
                          (rows ctx "subscriptions")) ctx)) as Hagain.
  1,3: rewrite (updateSubscriptionMetadata_one _ _ j
                  (patch_row (subscription_patch args) r));
       [ rewrite patch_row_idemp, rows_set_rows;
         case_decide; [|done];
         by rewrite list_insert_insert_eq, set_rows_set_rows
       | by eapply rows_patched_same
       | apply (keyed_by_patched_singleton _ _ _ _ _ r); try done;
         apply subscription_patch_keeps_id ].
  1,2: unfold state_after, outcome; by rewrite Hrun, Hagain.
  intros Hu i.
  destruct (keyed_by ctx "subscriptions" "stripeSubscriptionId"
              (MetadataArgs.stripeSubscriptionId args))
    as [|d [|d' l]] eqn:Hk; unfold state_after.
  - rewrite (updateSubscriptionMetadata_none _ _ Hk). apply Hu.
  - destruct (keyed_by_singleton_row _ _ _ _ _ Hk) as (j & r & Hr & -> & _).
    rewrite (updateSubscriptionMetadata_one _ _ _ _ Hr Hk).
    rewrite (keyed_by_patched _ _ _ _ _ r); try done.
    apply subscription_patch_keeps_id.
  - rewrite updateSubscriptionMetadata_many; [apply Hu|].
    rewrite Hk. simpl. lia.
Qed.

Lemma updateSubscriptionMetadata_idempotent_witness :
  unique_key Sample.store "subscriptions" "stripeSubscriptionId" ∧
  unique_key
    (state_after (updateSubscriptionMetadata (Sample.metadata_args "sub_1"))
       Sample.store) "subscriptions" "stripeSubscriptionId".
Proof.
  assert (unique_key Sample.store "subscriptions" "stripeSubscriptionId")
    as Hkey by (apply sample_unique_key; reflexivity).
  split; [exact Hkey|].
  destruct (updateSubscriptionMetadata_idempotent
              (Sample.metadata_args "sub_1") Sample.store)
    as (_ & _ & _ & Hkeeps).
  exact (Hkeeps Hkey).
Defined.

(** * The schema is kept *)

Lemma conforms_intro def (d : Doc) :
  (∀ k fv, (k, fv) ∈ validator def → validate_field fv (d !! k) = true) →
  (∀ k, is_Some (d !! k) → k ∈ (validator def).*1) →
  conforms def d = true.
Proof.
  intros Hfields Hdom. unfold conforms. apply andb_true_intro. split.
  - apply forallb_forall. intros [k fv] Hin%list_elem_of_In.
    by apply Hfields.
  - apply bool_decide_eq_true. intros k Hk%elem_of_dom.
    apply elem_of_list_to_set. by apply Hdom.
Qed.

Lemma conforms_dom def (d : Doc) k :
  conforms def d = true → is_Some (d !! k) → k ∈ (validator def).*1.
Proof.
  unfold conforms. intros [_ Hdom%bool_decide_eq_true]%andb_prop Hk.
  apply elem_of_dom in Hk. apply Hdom in Hk.
  by apply elem_of_list_to_set in Hk.
Qed.

Lemma table_conforms_patched ctx t def j r r' :
  schema.tables !! t = Some def →
  table_conforms ctx t → rows ctx t !! j = Some r →
  conforms def (fields r') = true →
  table_conforms (set_rows t (<[j := r']> (rows ctx t)) ctx) t.
Proof.
  intros Hdef Hc Hr Hr' def0 r0 Hdef0 Hin.
  assert (def0 = def) as -> by congruence.
  rewrite rows_set_rows in Hin. case_decide; [|done].
  apply list_elem_of_lookup in Hin as [n Hn].
  destruct (decide (n = j)) as [->|Hne].
  - rewrite list_lookup_insert_eq in Hn by by eapply lookup_lt_Some.
    by injection Hn as <-.
  - rewrite list_lookup_insert_ne in Hn by done.
    apply (Hc def r0 Hdef). by eapply list_elem_of_lookup_2.
Qed.

Lemma table_conforms_added ctx t def r :
  schema.tables !! t = Some def →
  table_conforms ctx t → conforms def (fields r) = true →
  table_conforms (add_row t r ctx) t.
Proof.
  intros Hdef Hc Hr def0 r0 Hdef0 Hin.
  assert (def0 = def) as -> by congruence.
  rewrite rows_add_row in Hin. case_decide; [|done].
  apply elem_of_app in Hin as [Hin|Hin%list_elem_of_singleton].
  - by apply (Hc def r0 Hdef).
  - by subst.
Qed.

Ltac declared_field Hin :=
  simpl in Hin;
  repeat (apply elem_of_cons in Hin as [Hin|Hin]; [simplify_eq|]);
  [..|by apply elem_of_nil in Hin].

Lemma optional_string_ok (o : option string) :
  validate_field (v_optional v_string) (VStr <$> o) = true.
Proof. by destruct o. Qed.

Lemma optional_any_ok (o : option Value) :
  validate_field (v_optional v_any) o = true.
Proof. by destruct o. Qed.

Lemma customer_patch_conforms args (d : Doc) :
  conforms schema.customers d = true →
  conforms schema.customers (shallow_merge d (customer_patch args)) = true.
Proof.
  intros Hd. apply conforms_intro.
  - intros k fv Hin. rewrite lookup_shallow_merge.
    declared_field Hin; simpl.
    + by apply (conforms_field schema.customers d "stripeCustomerId" v_string
                  Hd), list_elem_of_here.
    + apply optional_string_ok.
    + apply optional_string_ok.
    + apply optional_any_ok.
  - intros k [v Hv]. rewrite lookup_shallow_merge in Hv.
    destruct (assigned (customer_patch args) k) as [x|] eqn:Hk.
    + simpl in Hk. repeat case_decide; simplify_eq; simpl; set_solver.
    + apply (conforms_dom _ d); [done|]. by eexists.
Qed.

Lemma customer_object_conforms args :
  conforms schema.customers (object (customer_object args)) = true.
Proof.
  apply conforms_intro.
  - intros k fv Hin. rewrite lookup_object.
    declared_field Hin; simpl.
    + done.
    + apply optional_string_ok.
    + apply optional_string_ok.
    + apply optional_any_ok.
  - intros k [v Hv]. rewrite lookup_object in Hv.
    destruct (assigned (customer_object args) k) as [x|] eqn:Hk; [|done].
    simpl in Hk. repeat case_decide; simplify_eq; simpl; set_solver.
Qed.

Lemma subscription_patch_conforms args (d : Doc) :
  conforms schema.subscriptions d = true →
  conforms schema.subscriptions (shallow_merge d (subscription_patch args))
  = true.
Proof.
  intros Hd. apply conforms_intro.
  - intros k fv Hin. rewrite lookup_shallow_merge.
    assert (∀ k' fv', (k', fv') ∈ validator schema.subscriptions →
              validate_field fv' (d !! k') = true) as Hold
      by (intros; by eapply conforms_field).
    declared_field Hin; simpl;
      try (apply Hold; simpl; set_solver).
    + done.
    + apply optional_string_ok.
    + apply optional_string_ok.
  - intros k [v Hv]. rewrite lookup_shallow_merge in Hv.
    destruct (assigned (subscription_patch args) k) as [x|] eqn:Hk.
    + simpl in Hk. repeat case_decide; simplify_eq; simpl; set_solver.
    + apply (conforms_dom _ d); [done|]. by eexists.
Qed.

(** Both mutations keep the schema: if every stored customer conforms to
    the customers table of schema.ts, so does every customer after
    [createOrUpdateCustomer], whichever branch it takes; likewise for
    subscriptions and [updateSubscriptionMetadata]. *)
Theorem mutations_keep_the_schema ctx :
  (∀ args, table_conforms ctx "customers" →
     table_conforms (state_after (createOrUpdateCustomer args) ctx)
       "customers") ∧
  (∀ args, table_conforms ctx "subscriptions" →
     table_conforms (state_after (updateSubscriptionMetadata args) ctx)
       "subscriptions").
Proof.
  split; intros args Hc; unfold state_after.
  - destruct (keyed_by ctx "customers" "stripeCustomerId"
                (CustomerArgs.stripeCustomerId args))
      as [|d [|d' l]] eqn:Hk.
    + rewrite (createOrUpdateCustomer_none _ _ Hk).
      apply (table_conforms_added _ _ schema.customers); [done..|].
      apply customer_object_conforms.
    + destruct (keyed_by_singleton_row _ _ _ _ _ Hk) as (j & r & Hr & -> & _).
      rewrite (createOrUpdateCustomer_one _ _ _ _ Hr Hk).
      apply (table_conforms_patched _ _ schema.customers _ r); [done..|].
      apply customer_patch_conforms, Hc; [done|].
      by eapply list_elem_of_lookup_2.
    + rewrite createOrUpdateCustomer_many; [done|]. rewrite Hk. simpl. lia.
  - destruct (keyed_by ctx "subscriptions" "stripeSubscriptionId"
                (MetadataArgs.stripeSubscriptionId args))
      as [|d [|d' l]] eqn:Hk.
    + by rewrite (updateSubscriptionMetadata_none _ _ Hk).
    + destruct (keyed_by_singleton_row _ _ _ _ _ Hk) as (j & r & Hr & -> & _).
      rewrite (updateSubscriptionMetadata_one _ _ _ _ Hr Hk).
      apply (table_conforms_patched _ _ schema.subscriptions _ r); [done..|].
      apply subscription_patch_conforms, Hc; [done|].
      by eapply list_elem_of_lookup_2.
    + rewrite updateSubscriptionMetadata_many; [done|]. rewrite Hk. simpl. lia.
Qed.

Lemma sample_customers_conform : table_conforms Sample.store "customers".
Proof.
  intros def r Hdef Hr. vm_compute in Hdef. injection Hdef as <-.
  change (rows Sample.store "customers") with [Sample.customer_row] in Hr.
  apply list_elem_of_singleton in Hr as ->. by vm_compute.
Qed.

Lemma mutations_keep_the_schema_witness :
  table_conforms Sample.store "customers" ∧
  table_conforms
    (state_after (createOrUpdateCustomer (Sample.customer_args "cus_2"))
       Sample.store) "customers".
Proof.
  pose proof sample_customers_conform as Hc.
  split; [exact Hc|].
  destruct (mutations_keep_the_schema Sample.store) as [Hcustomers _].
  exact (Hcustomers (Sample.customer_args "cus_2") Hc).
Defined.

Lemma strip_document_clean t j row :
  fields row !! "_id" = None → fields row !! "_creationTime" = None →
  strip (document t j row) = fields row.
Proof.
  intros H1 H2. apply map_eq. intros k.
  destruct (decide (k = "_id")) as [->|Hk1]; [by rewrite strip_id|].
  destruct (decide (k = "_creationTime")) as [->|Hk2];
    [by rewrite strip_creationTime|].
  by rewrite strip_other, document_other.
Qed.

Lemma schema_table t :
  t ∈ ["products"; "prices"; "customers"; "subscriptions"; "payments";
       "invoices"] →
  ∃ def, schema.tables !! t = Some def ∧
    ("_id" ∉ (validator def).*1) ∧ ("_creationTime" ∉ (validator def).*1).
Proof.
  intros Ht.
  repeat (apply elem_of_cons in Ht as [->|Ht];
          [eexists; split; [reflexivity|]; simpl;
           split; intros Hin;
           repeat (apply elem_of_cons in Hin as [?|Hin]; [done|]);
           by apply elem_of_nil in Hin|]).
  by apply elem_of_nil in Ht.
Qed.

Lemma strip_conforms ctx t def (d : Doc) :
  schema.tables !! t = Some def →
  t ∈ ["products"; "prices"; "customers"; "subscriptions"; "payments";
       "invoices"] →
  table_conforms ctx t → d ∈ query ctx t →
  conforms def (strip d) = true.
Proof.
  intros Hdef Ht Hc (j & row & Hrow & ->)%elem_of_query.
  destruct (schema_table t Ht) as (def' & Hdef' & Hid & Hct).
  assert (def' = def) as -> by congruence.
  assert (conforms def (fields row) = true) as Hrowc.
  { apply (Hc def row Hdef). by eapply list_elem_of_lookup_2. }
  rewrite strip_document_clean; [done| |].
  - destruct (fields row !! "_id") eqn:E; [|done].
    exfalso. apply Hid, (conforms_dom def (fields row)); [done|by eexists].
  - destruct (fields row !! "_creationTime") eqn:E; [|done].
    exfalso. apply Hct, (conforms_dom def (fields row)); [done|by eexists].
Qed.

Lemma forallb_strip_conforms ctx t def (docs : list Doc) :
  schema.tables !! t = Some def →
  t ∈ ["products"; "prices"; "customers"; "subscriptions"; "payments";
       "invoices"] →
  table_conforms ctx t → (∀ d, d ∈ docs → d ∈ query ctx t) →
  forallb (conforms def) (strip <$> docs) = true.
Proof.
  intros Hdef Ht Hc Hsub. apply forallb_forall.
  intros r (d & -> & Hd)%list_elem_of_In%list_elem_of_fmap.
  eapply strip_conforms; eauto.
Qed.

Ltac stored_docs :=
  let d := fresh "d" in
  let Hd := fresh "Hd" in
  intros d Hd;
  repeat match type of Hd with
         | _ ∈ withIndex _ _ _ => apply withIndex_sub in Hd
         | _ ∈ filter _ _ => apply list_elem_of_filter in Hd as [_ Hd]
         end;
  exact Hd.

Ltac schema_table_name :=
  repeat first [ apply list_elem_of_here | apply list_elem_of_further ].

Ltac conforms_in t Hc Hu :=
  first
    [ eapply (forallb_strip_conforms _ t);
      [reflexivity|schema_table_name|apply Hc; schema_table_name
      |stored_docs]
    | eapply (strip_conforms _ t);
      [reflexivity|schema_table_name|apply Hc; schema_table_name|];
      eapply withIndex_sub;
      first [ rewrite Hu; apply list_elem_of_here
            | eapply first_elem; eassumption ] ].

(** On a store that conforms to the schema, the answer of every query
    passes the query's own [returns] declaration: a point lookup gives null
    or a record that conforms to the validator of its table, a listing
    gives records that all do, and the compound read gives null or a
    product that conforms to the products validator with prices that all
    conform to the prices validator. *)
Theorem query_results_conform ctx c a :
  (∀ t, t ∈ tables_read c → table_conforms ctx t) →
  run_query ctx c = Ok a →
  accepts (returns c) a = true.
Proof.
  intros Hc Hrun.
  destruct c; simpl in Hrun, Hc; cbn [returns].
  all: unfold getProduct, getPrice, getPriceByLookupKey, getCustomer,
         getSubscription, getPayment, listProducts, listActiveProducts,
         listPrices, listActivePrices, listPricesByProduct,
         listActivePricesByProduct, listSubscriptions,
         listSubscriptionsByUserId, listPayments, listPaymentsByUserId,
         listPaymentsByOrgId, listInvoices, listInvoicesByOrgId,
         listInvoicesByUserId, getProductWithPrices, getSubscriptionByOrgId,
         collect in Hrun;
       unfold_result.
  all: try match type of Hrun with
       | context [unique ?l] => destruct (unique l) as [o|] eqn:Hu
       end; try done.
  all: try (destruct o as [found|]).
  all: try match type of Hrun with
       | context [first ?l] =>
           destruct (first l) as [subscription|] eqn:Hf
       end.
  all: injection Hrun as <-; cbn [accepts data_or_null product prices].
  all: try done.
  all: try (apply unique_Some in Hu).
  all: try match goal with
       | |- conforms _ _ && forallb _ _ = true =>
           apply andb_true_intro; split
       end.
  all: conforms_in "products" Hc Hu || conforms_in "prices" Hc Hu
       || conforms_in "customers" Hc Hu || conforms_in "subscriptions" Hc Hu
       || conforms_in "payments" Hc Hu || conforms_in "invoices" Hc Hu.
Qed.

Lemma sample_products_conform : table_conforms Sample.store "products".
Proof.
  intros def r Hdef Hr. vm_compute in Hdef. injection Hdef as <-.
  change (rows Sample.store "products") with [Sample.product_row] in Hr.
  apply list_elem_of_singleton in Hr as ->. by vm_compute.
Qed.

Lemma query_results_conform_witness :
  (∀ t, t ∈ tables_read (GetProductWithPrices "prod_1") →
        table_conforms Sample.store t) ∧
  conforms schema.products
    (strip (document "products" 0 Sample.product_row)) = true ∧
  forallb (conforms schema.prices)
    [ strip (document "prices" 0 (Sample.price_row "price_1" true 11));
      strip (document "prices" 1 (Sample.price_row "price_2" false 12)) ]
  = true.
Proof.
  assert (∀ t, t ∈ tables_read (GetProductWithPrices "prod_1") →
               table_conforms Sample.store t) as Hc.
  { intros t [->| ->%list_elem_of_singleton]%elem_of_cons.
    - apply sample_products_conform.
    - apply sample_prices_conform. }
  split; [exact Hc|].
  apply andb_prop.
  apply (query_results_conform Sample.store (GetProductWithPrices "prod_1")
           (AProductWithPrices (Some
              {| product := strip (document "products" 0 Sample.product_row);
                 prices :=
                   [ strip (document "prices" 0
                              (Sample.price_row "price_1" true 11));
                     strip (document "prices" 1
                              (Sample.price_row "price_2" false 12)) ] |}))
           Hc).
  reflexivity.
Defined.

(** * Further properties of the action *)

Section MoreActionProperties.

Context {Stripe : Type}.
Variable retrieve : string → string → Stripe → result Subscription * Stripe.
Variable update : string → string → Z → Stripe → result unit * Stripe.
Variable internal : string → Z → Mutation Value.

(** With no key, or with the empty string for a key, the action throws
    before it calls anything: the provider, the local store and the calls
    made are as they were. *)
Theorem updateSubscriptionQuantity_without_key id q (w : World) :
  env w !! "STRIPE_SECRET_KEY" = None
  ∨ env w !! "STRIPE_SECRET_KEY" = Some "" →
  updateSubscriptionQuantity retrieve update internal id q w
  = (Throw "STRIPE_SECRET_KEY must be provided as an environment variable", w)
  ∧ effects (updateSubscriptionQuantity retrieve update internal id q) w = [].
Proof.
  intros Hkey.
  assert (truthy (VStr <$> env w !! "STRIPE_SECRET_KEY") = false) as Hfalsy
    by by destruct Hkey as [-> | ->].
  pose proof (updateSubscriptionQuantity_missing_key
                retrieve update internal id q w Hfalsy) as Hrun.
  split; [exact Hrun|]. apply effects_none. by rewrite Hrun.
Qed.

(** Once the provider has accepted the item update, the action updates the
    first item of the subscription only, runs the local mutation, and keeps
    the provider as the update left it whatever the local mutation does: if
    the mutation commits the action returns null and the local store is the
    committed one; if it throws, the action throws the same error, the local
    store is as it was, and the provider's update is not undone. *)
Theorem updateSubscriptionQuantity_after_provider_update id q (w : World)
    key sub s item rest u s' :
  env w !! "STRIPE_SECRET_KEY" = Some key → key ≠ "" →
  retrieve key id (remote w) = (Ok sub, s) →
  items_data sub = item :: rest →
  update key (item_id item) q s = (Ok u, s') →
  remote (updateSubscriptionQuantity retrieve update internal id q w).2 = s' ∧
  (∃ ok,
     effects (updateSubscriptionQuantity retrieve update internal id q) w
     = [ SubscriptionsRetrieve id true;
         SubscriptionItemsUpdate (item_id item) q true;
         RunMutation id q ok ]) ∧
  (∀ v db, internal id q (local w) = Ok (v, db) →
     (updateSubscriptionQuantity retrieve update internal id q w).1 = Ok VNull
     ∧ local (updateSubscriptionQuantity retrieve update internal id q w).2
       = db) ∧
  (∀ e, internal id q (local w) = Throw e →
     (updateSubscriptionQuantity retrieve update internal id q w).1 = Throw e
     ∧ local (updateSubscriptionQuantity retrieve update internal id q w).2
       = local w).
Proof.
  intros Hk Hne Hr Hi Hu.
  pose proof (updateSubscriptionQuantity_remote_done
                retrieve update internal
                id q w key sub s item rest u s' Hk Hne Hr Hi Hu) as Hrun.
  split_and!.
  - by rewrite Hrun.
  - eexists. apply effects_app. by rewrite Hrun, <- !app_assoc.
  - intros v db Hint. rewrite Hrun. unfold outcome, state_after.
    by rewrite Hint.
  - intros e Hint. rewrite Hrun. unfold outcome, state_after.
    by rewrite Hint.
Qed.

(** The action returns only after the local mutation has committed: if it
    returns, it returns null, it made exactly the three calls, each
    successful, and the local store is the one the mutation committed. *)
Theorem updateSubscriptionQuantity_returns_after_commit id q (w : World) v :
  (updateSubscriptionQuantity retrieve update internal id q w).1 = Ok v →
  v = VNull ∧
  (∃ item,
     effects (updateSubscriptionQuantity retrieve update internal id q) w
     = [ SubscriptionsRetrieve id true;
         SubscriptionItemsUpdate item q true;
         RunMutation id q true ]) ∧
  returned (outcome (internal id q) (local w)) ∧
  local (updateSubscriptionQuantity retrieve update internal id q w).2
  = state_after (internal id q) (local w).
Proof.
  intros Hret.
  destruct (env w !! "STRIPE_SECRET_KEY") as [key|] eqn:Hk.
  2: { rewrite (updateSubscriptionQuantity_missing_key
                  retrieve update internal id q w) in Hret; [done|].
       by rewrite Hk. }
  destruct (decide (key = "")) as [->|Hne].
  { rewrite (updateSubscriptionQuantity_missing_key
               retrieve update internal id q w) in Hret; [done|].
    by rewrite Hk. }
  destruct (retrieve key id (remote w)) as [[sub|e] s] eqn:Hr.
  2: { by rewrite (updateSubscriptionQuantity_retrieve_fails
                     retrieve update internal id q w key e s Hk Hne Hr)
         in Hret. }
  destruct (items_data sub) as [|item rest] eqn:Hi.
  { by rewrite (updateSubscriptionQuantity_no_items
                  retrieve update internal id q w key sub s Hk Hne Hr Hi)
      in Hret. }
  destruct (update key (item_id item) q s) as [[u|e] s'] eqn:Hu.
  2: { by rewrite (updateSubscriptionQuantity_update_fails
                     retrieve update internal id q w key sub s item rest e s'
                     Hk Hne Hr Hi Hu) in Hret. }
  pose proof (updateSubscriptionQuantity_remote_done
                retrieve update internal
                id q w key sub s item rest u s' Hk Hne Hr Hi Hu) as Hrun.
  rewrite Hrun in Hret |- *. simpl in *.
  assert (effects (updateSubscriptionQuantity retrieve update internal id q) w
          = [ SubscriptionsRetrieve id true;
              SubscriptionItemsUpdate (item_id item) q true;
              RunMutation id q (is_ok (outcome (internal id q) (local w))) ])
    as He by (apply effects_app; by rewrite Hrun, <- !app_assoc).
  rewrite He.
  destruct (outcome (internal id q) (local w)) as [v0|e] eqn:Hout;
    [|done].
  injection Hret as <-. split_and!; [done|by eexists|by eexists|done].
Qed.

End MoreActionProperties.

Lemma updateSubscriptionQuantity_without_key_witness :
  updateSubscriptionQuantity Sample.retrieve (Sample.update true)
    Sample.internal "sub_1" 5
    {| env := {[ "STRIPE_SECRET_KEY" := "" ]}; remote := tt;
       local := Sample.store; trace := [] |}
  = (Throw "STRIPE_SECRET_KEY must be provided as an environment variable",
     {| env := {[ "STRIPE_SECRET_KEY" := "" ]}; remote := tt;
        local := Sample.store; trace := [] |}).
Proof.
  apply (updateSubscriptionQuantity_without_key
           Sample.retrieve (Sample.update true) Sample.internal "sub_1" 5).
  right. reflexivity.
Defined.

Lemma updateSubscriptionQuantity_after_provider_update_witness :
  (updateSubscriptionQuantity Sample.retrieve (Sample.update true)
     Sample.internal "sub_1" 5 Sample.world).1 = Ok VNull
  ∧ local (updateSubscriptionQuantity Sample.retrieve (Sample.update true)
             Sample.internal "sub_1" 5 Sample.world).2 = Sample.store.
Proof.
  destruct (updateSubscriptionQuantity_after_provider_update
              Sample.retrieve (Sample.update true) Sample.internal
              "sub_1" 5 Sample.world "sk_test_123"
              {| items_data := [ {| item_id := "si_1" |} ] |} tt
              {| item_id := "si_1" |} [] tt tt)
    as (_ & _ & Hcommit & _); try reflexivity; [done|].
  exact (Hcommit VNull Sample.store eq_refl).
Defined.

Lemma updateSubscriptionQuantity_returns_after_commit_witness :
  (updateSubscriptionQuantity Sample.retrieve (Sample.update true)
     Sample.internal "sub_1" 5 Sample.world).1 = Ok VNull ∧
  returned (outcome (Sample.internal "sub_1" 5) (local Sample.world)).
Proof.
  assert ((updateSubscriptionQuantity Sample.retrieve (Sample.update true)
             Sample.internal "sub_1" 5 Sample.world).1 = Ok VNull) as Hret
    by reflexivity.
  split; [exact Hret|].
  destruct (updateSubscriptionQuantity_returns_after_commit
              Sample.retrieve (Sample.update true) Sample.internal
              "sub_1" 5 Sample.world VNull Hret) as (_ & _ & Hcommitted & _).
  exact Hcommitted.
Defined.

(** [createOrUpdateCustomer] touches one customer at most: every stored
    customer with another id keeps its position, its creation stamp and its
    fields, existing rows are never removed, and at most one row is added,
    at the end. *)
Theorem createOrUpdateCustomer_other_customers_untouched args ctx :
  (∀ j r, rows ctx "customers" !! j = Some r →
     fields r !! "stripeCustomerId"
     ≠ Some (VStr (CustomerArgs.stripeCustomerId args)) →
     rows (state_after (createOrUpdateCustomer args) ctx) "customers" !! j
     = Some r) ∧
  (∀ j, j < length (rows ctx "customers") →
     is_Some (rows (state_after (createOrUpdateCustomer args) ctx)
                "customers" !! j)) ∧
  length (rows ctx "customers")
  ≤ length (rows (state_after (createOrUpdateCustomer args) ctx) "customers")
  ≤ S (length (rows ctx "customers")).
Proof.
  unfold state_after.
  destruct (keyed_by ctx "customers" "stripeCustomerId"
              (CustomerArgs.stripeCustomerId args)) as [|d [|d' l]] eqn:Hk.
  - rewrite (createOrUpdateCustomer_none _ _ Hk), rows_add_row.
    case_decide; [|done]. split_and!.
    + intros j r Hr _. by apply lookup_app_l_Some.
    + intros j Hj. apply lookup_lt_is_Some. rewrite length_app. lia.
    + rewrite length_app. lia.
    + rewrite length_app. simpl. lia.
  - destruct (keyed_by_singleton_row _ _ _ _ _ Hk)
      as (j0 & r0 & Hr0 & -> & Hid).
    rewrite document_other in Hid by done.
    rewrite (createOrUpdateCustomer_one _ _ _ _ Hr0 Hk), rows_set_rows.
    case_decide; [|done]. split_and!.
    + intros j r Hr Hne. rewrite list_lookup_insert_ne; [done|].
      intros ->. congruence.
    + intros j Hj. apply lookup_lt_is_Some. by rewrite length_insert.
    + by rewrite length_insert.
    + rewrite length_insert. lia.
  - rewrite createOrUpdateCustomer_many by (rewrite Hk; simpl; lia).
    split_and!; [done| |lia..].
    intros j Hj. by apply lookup_lt_is_Some.
Qed.

Lemma createOrUpdateCustomer_other_customers_untouched_witness :
  rows (state_after (createOrUpdateCustomer (Sample.customer_args "cus_2"))
          Sample.store) "customers" !! 0 = Some Sample.customer_row.
Proof.
  destruct (createOrUpdateCustomer_other_customers_untouched
              (Sample.customer_args "cus_2") Sample.store) as (Hother & _).
  apply Hother; [reflexivity|].
  assert (fields Sample.customer_row !! "stripeCustomerId"
          = Some (VStr "cus_1")) as -> by reflexivity.
  by intros [=].
Defined.

Lemma getSubscriptionByOrgId_first_created_witness :
  ∃ answer, getSubscriptionByOrgId Sample.store "org_1" = Ok answer
            ∧ answer ≠ None.
Proof.
  destruct (getSubscriptionByOrgId_first_created Sample.store "org_1")
    as (answer & Hget & Hnull & _).
  exists answer. split; [exact Hget|].
  intros Hnone. apply (proj1 Hnull Hnone).
  exists (document "subscriptions" 0 Sample.subscription_row). split.
  - apply elem_of_query. by exists 0, Sample.subscription_row.
  - reflexivity.
Defined.

Lemma getProductWithPrices_composes_witness :
  getProduct Sample.store "prod_1"
  = Ok (Some (strip (document "products" 0 Sample.product_row))) ∧
  ∃ ps, listPricesByProduct Sample.store "prod_1" = Ok ps ∧
    getProductWithPrices Sample.store "prod_1"
    = Ok (Some {| product := strip (document "products" 0 Sample.product_row);
                  prices := ps |}).
Proof.
  assert (getProduct Sample.store "prod_1"
          = Ok (Some (strip (document "products" 0 Sample.product_row))))
    as Hget by reflexivity.
  split; [exact Hget|].
  destruct (getProductWithPrices_composes Sample.store "prod_1")
    as (_ & _ & Hsome).
  exact (Hsome _ Hget).
Defined.
